(** * The extension environment of emblem ([src/ext/ext-env.c])

    A shallow embedding of the environment bootstrapper: the host memory the
    C code works on is an explicit store, the Lua C API calls are store
    transformers, and a C function that may raise a Lua error or touch an
    invalid pointer returns an [Outcome]. *)

From stdpp Require Import base gmap strings list fin_maps.
From Stdlib Require Import ZArith Lia.

Local Open Scope Z_scope.

(** ** Values of the scripting runtime *)

(** Addresses of host objects (results of [malloc], [luaL_newstate], or the
    address of a caller-owned struct). *)
Abbreviation addr := positive.

(** The C functions the file hands to the runtime as [lua_CFunction]. *)
Inductive lua_CFunction :=
  | luaopen_base | luaopen_package | luaopen_coroutine | luaopen_utf8
  | luaopen_table | luaopen_string | luaopen_math | luaopen_debug
  | luaopen_io | luaopen_os
  | ext_eval_tree | ext_import_stylesheet | ext_require_rerun_ptr
  | ext_include_file.

(** A Lua value as far as this file builds or inspects one.  [LLib f] is the
    library table an opener [f] returns; what the opener puts inside belongs
    to the Lua distribution and is not inspected by [ext-env.c]. *)
Inductive LuaValue :=
  | LNil
  | LBoolean (b : bool)
  | LInteger (n : Z)
  | LString (str : string)
  | LLightUserdata (p : addr)
  | LCFunction (f : lua_CFunction)
  | LTable (r : addr)
  | LLib (f : lua_CFunction).

#[global] Instance lua_CFunction_eq_dec : EqDecision lua_CFunction.
Proof. solve_decision. Defined.
#[global] Instance LuaValue_eq_dec : EqDecision LuaValue.
Proof. solve_decision. Defined.

(** [lua_toboolean]: everything but nil and false is true. *)
Definition lua_toboolean (v : LuaValue) : bool :=
  match v with LNil => false | LBoolean b => b | _ => true end.

(** One runtime instance ([lua_State]).  [stack] is the frame of the running
    C function with its top at the head; [globals] is the global table;
    [loaded] is the registry table [_LOADED] ([package.loaded]); [tables]
    holds the tables created with [lua_newtable], by reference. *)
Record lua_State := mk_lua_State {
  stack : list LuaValue;
  globals : gmap string LuaValue;
  loaded : gmap string LuaValue;
  tables : gmap addr (gmap string LuaValue)
}.

Definition set_stack (st : list LuaValue) (L : lua_State) : lua_State :=
  mk_lua_State st (globals L) (loaded L) (tables L).
Definition set_lua_globals (g : gmap string LuaValue) (L : lua_State) : lua_State :=
  mk_lua_State (stack L) g (loaded L) (tables L).
Definition set_loaded (m : gmap string LuaValue) (L : lua_State) : lua_State :=
  mk_lua_State (stack L) (globals L) m (tables L).
Definition set_tables (t : gmap addr (gmap string LuaValue)) (L : lua_State) : lua_State :=
  mk_lua_State (stack L) (globals L) (loaded L) t.

(** ** Host data *)

(** The tags of [LuaPointer] that [ext-env.c] uses. *)
Inductive LuaPointerType := STYLER | EXT_ENV | PARSED_ARGS | MT_NAMES_LIST.

#[global] Instance LuaPointerType_eq_dec : EqDecision LuaPointerType.
Proof. solve_decision. Defined.

(** Modelled from the spec: the [LuaPointer] struct of [lua-pointer.h] is not
    among the sources.  A Tagged Handle has a [kind] and a non-owning
    [pointer] to host data. *)
Record LuaPointer := mk_LuaPointer {
  kind : LuaPointerType;
  pointer : addr
}.

(** [ExtensionEnv], with the fields [ext-env.c] reads and writes. *)
Record ExtensionEnv := mk_ExtensionEnv {
  state : addr;
  require_extra_run : bool;
  iter_num : Z;
  styler : addr;
  selfp : addr;
  args : addr;
  mt_names_list : addr
}.

Definition set_state (s : addr) (e : ExtensionEnv) : ExtensionEnv :=
  mk_ExtensionEnv s (require_extra_run e) (iter_num e) (styler e) (selfp e) (args e) (mt_names_list e).
Definition set_require_extra_run (b : bool) (e : ExtensionEnv) : ExtensionEnv :=
  mk_ExtensionEnv (state e) b (iter_num e) (styler e) (selfp e) (args e) (mt_names_list e).
Definition set_iter_num (n : Z) (e : ExtensionEnv) : ExtensionEnv :=
  mk_ExtensionEnv (state e) (require_extra_run e) n (styler e) (selfp e) (args e) (mt_names_list e).
Definition set_styler (p : addr) (e : ExtensionEnv) : ExtensionEnv :=
  mk_ExtensionEnv (state e) (require_extra_run e) (iter_num e) p (selfp e) (args e) (mt_names_list e).
Definition set_selfp (p : addr) (e : ExtensionEnv) : ExtensionEnv :=
  mk_ExtensionEnv (state e) (require_extra_run e) (iter_num e) (styler e) p (args e) (mt_names_list e).
Definition set_args (p : addr) (e : ExtensionEnv) : ExtensionEnv :=
  mk_ExtensionEnv (state e) (require_extra_run e) (iter_num e) (styler e) (selfp e) p (mt_names_list e).
Definition set_mt_names_list (p : addr) (e : ExtensionEnv) : ExtensionEnv :=
  mk_ExtensionEnv (state e) (require_extra_run e) (iter_num e) (styler e) (selfp e) (args e) p.

(** [ExtParams], with the fields [ext-env.c] reads ([params->...]). *)
Record ExtParams := mk_ExtParams {
  sandbox_lvl : Z;
  params_styler : addr;
  params_args : addr;
  params_mt_names_list : addr
}.

(** What the logging functions write: a level, the printf format and its
    arguments. *)
Inductive LogLevel := LOG_DEBUG | LOG_WARN.
Inductive LogArg := ArgString (str : string) | ArgPointer (p : addr).
Record LogRecord := mk_LogRecord {
  log_level : LogLevel;
  log_format : string;
  log_args : list LogArg
}.

(** The host memory.  [lua_pointers] maps a [malloc]ed block to [None] until
    [make_lua_pointer] has initialised it.  [warn_status] is the policy of
    the logger: the value its warning call returns. *)
Record Host := mk_Host {
  lua_states : gmap addr lua_State;
  lua_pointers : gmap addr (option LuaPointer);
  ext_envs : gmap addr ExtensionEnv;
  logs : list LogRecord;
  warn_status : Z
}.

Definition set_lua_states (m : gmap addr lua_State) (h : Host) : Host :=
  mk_Host m (lua_pointers h) (ext_envs h) (logs h) (warn_status h).
Definition set_lua_pointers (m : gmap addr (option LuaPointer)) (h : Host) : Host :=
  mk_Host (lua_states h) m (ext_envs h) (logs h) (warn_status h).
Definition set_ext_envs (m : gmap addr ExtensionEnv) (h : Host) : Host :=
  mk_Host (lua_states h) (lua_pointers h) m (logs h) (warn_status h).
Definition set_logs (l : list LogRecord) (h : Host) : Host :=
  mk_Host (lua_states h) (lua_pointers h) (ext_envs h) l (warn_status h).

(** ** Outcomes of a C function *)

(** [Done a h]: the function returned [a].  [Raised msg h]: it left through
    [luaL_error] (a guest-visible error; the C code after the call does not
    run).  [Undefined]: it used a pointer that names no live object, or
    popped an empty stack: C gives this no meaning. *)
Inductive Outcome (A : Type) :=
  | Done (a : A) (h : Host)
  | Raised (msg : string) (h : Host)
  | Undefined.
Arguments Done {A} a h.
Arguments Raised {A} msg h.
Arguments Undefined {A}.

Definition M (A : Type) : Type := Host -> Outcome A.

Definition ret {A} (a : A) : M A := fun h => Done a h.

Definition bind {A B} (c : M A) (k : A -> M B) : M B :=
  fun h =>
    match c h with
    | Done a h' => k a h'
    | Raised msg h' => Raised msg h'
    | Undefined => Undefined
    end.

Declare Scope ext_scope.
Delimit Scope ext_scope with ext.
Notation "'let*' x := c 'in' k" := (bind c (fun x => k))
  (at level 10, x name, c at level 100, k at level 200) : ext_scope.
Notation "c ;; k" := (bind c (fun _ => k))
  (at level 100, k at level 200, right associativity) : ext_scope.
Local Open Scope ext_scope.

(** [lift f]: a step that cannot fail. *)
Definition lift (f : Host -> Host) : M unit := fun h => Done tt (f h).

(** ** The Lua C API, as [ext-env.c] uses it *)

(** The host memory with the runtime [L] behind the pointer [s]. *)
Definition upd_state (s : addr) (L : lua_State) (h : Host) : Host :=
  set_lua_states (<[s := L]> (lua_states h)) h.

(** Run [f] on the runtime behind the pointer [s] and store what it leaves;
    [None] from [f] is a misuse of the API (an empty stack popped). *)
Definition on_state {A} (s : addr) (f : lua_State -> option (A * lua_State)) : M A :=
  fun h =>
    match lua_states h !! s with
    | Some L =>
        match f L with
        | Some (a, L') => Done a (upd_state s L' h)
        | None => Undefined
        end
    | None => Undefined
    end.

Definition push (v : LuaValue) (L : lua_State) : lua_State :=
  set_stack (v :: stack L) L.

(** The value at an acceptable stack index: [-1] is the top, [1] the
    bottom. *)
Definition index2value (L : lua_State) (idx : Z) : option LuaValue :=
  if idx <? 0 then stack L !! Z.to_nat (- idx - 1)
  else if idx =? 0 then None
  else if Z.of_nat (length (stack L)) <? idx then None
  else stack L !! (length (stack L) - Z.to_nat idx)%nat.

(** [luaL_newstate]: a fresh runtime, nothing on its stack, no global, no
    library loaded. *)
Definition empty_lua_State : lua_State := mk_lua_State [] ∅ ∅ ∅.

Definition luaL_newstate : M addr :=
  fun h =>
    let s := fresh (dom (lua_states h)) in
    Done s (upd_state s empty_lua_State h).

Definition lua_close (s : addr) : M unit :=
  fun h =>
    match lua_states h !! s with
    | Some _ => Done tt (set_lua_states (delete s (lua_states h)) h)
    | None => Undefined
    end.

Definition lua_pushinteger (s : addr) (n : Z) : M unit :=
  on_state s (fun L => Some (tt, push (LInteger n) L)).

Definition lua_pushlightuserdata (s : addr) (p : addr) : M unit :=
  on_state s (fun L => Some (tt, push (LLightUserdata p) L)).

Definition lua_pushcfunction (s : addr) (f : lua_CFunction) : M unit :=
  on_state s (fun L => Some (tt, push (LCFunction f) L)).

(** Storing nil under a key removes the key. *)
Definition table_set (k : string) (v : LuaValue) (t : gmap string LuaValue) : gmap string LuaValue :=
  match v with LNil => delete k t | _ => <[k := v]> t end.

(** [lua_setglobal]: pops the top and binds it to the global [name]. *)
Definition lua_setglobal (s : addr) (name : string) : M unit :=
  on_state s (fun L =>
    match stack L with
    | v :: rest => Some (tt, set_stack rest (set_lua_globals (table_set name v (globals L)) L))
    | [] => None
    end).

(** [lua_getglobal]: pushes the value of the global [name], nil when
    unbound. *)
Definition lua_getglobal (s : addr) (name : string) : M unit :=
  on_state s (fun L => Some (tt, push (default LNil (globals L !! name)) L)).

Definition lua_newtable (s : addr) : M unit :=
  on_state s (fun L =>
    let r := fresh (dom (tables L)) in
    Some (tt, push (LTable r) (set_tables (<[r := ∅]> (tables L)) L))).

Definition lua_gettop (s : addr) : M Z :=
  on_state s (fun L => Some (Z.of_nat (length (stack L)), L)).

(** [lua_pop(s, n)] *)
Definition lua_pop (s : addr) (n : nat) : M unit :=
  on_state s (fun L =>
    if (n <=? length (stack L))%nat then Some (tt, set_stack (drop n (stack L)) L)
    else None).

(** [luaL_error]: never returns to its caller. *)
Definition luaL_error {A} (s : addr) (msg : string) : M A :=
  fun h =>
    match lua_states h !! s with
    | Some _ => Raised msg h
    | None => Undefined
    end.

(** [lua_setfield(s, idx, k)]: [t[k] = v] for the table [t] at [idx] and the
    value [v] on top, which is popped.  Indexing anything but a table is a
    Lua error. *)
Definition lua_setfield (s : addr) (idx : Z) (k : string) : M unit :=
  fun h =>
    match lua_states h !! s with
    | Some L =>
        match stack L, index2value L idx with
        | v :: rest, Some (LTable r) =>
            match tables L !! r with
            | Some t =>
                Done tt (upd_state s
                  (set_stack rest (set_tables (<[r := table_set k v t]> (tables L)) L)) h)
            | None => Undefined
            end
        | _ :: _, Some _ => Raised "attempt to index a non-table value" h
        | _, _ => Undefined
        end
    | None => Undefined
    end.

(** [lua_register(s, n, f)] is [lua_pushcfunction(s, f); lua_setglobal(s, n)]. *)
Definition lua_register (s : addr) (n : string) (f : lua_CFunction) : M unit :=
  lua_pushcfunction s f ;; lua_setglobal s n.

(** [luaL_requiref(s, modname, openf, glb)]: if [package.loaded[modname]] is
    not yet true, call [openf] and store the library it returns there; leave
    the library on the stack; with [glb] also bind it to the global
    [modname]. *)
Definition luaL_requiref (s : addr) (modname : string) (openf : lua_CFunction) (glb : bool) : M unit :=
  on_state s (fun L =>
    let v := default LNil (loaded L !! modname) in
    let (m, L1) :=
      if lua_toboolean v then (v, L)
      else (LLib openf, set_loaded (<[modname := LLib openf]> (loaded L)) L) in
    let L2 := push m L1 in
    Some (tt, if glb then set_lua_globals (table_set modname m (globals L2)) L2 else L2)).

(** ** Host helpers that are not among the sources *)

(** [malloc(sizeof(LuaPointer))]: a block no live handle occupies, not yet
    initialised.  The source does not test the result, and neither does the
    model: allocation succeeds. *)
Definition malloc : M addr :=
  fun h =>
    let p := fresh (dom (lua_pointers h)) in
    Done p (set_lua_pointers (<[p := None]> (lua_pointers h)) h).

Definition free (p : addr) : M unit :=
  fun h =>
    match lua_pointers h !! p with
    | Some _ => Done tt (set_lua_pointers (delete p (lua_pointers h)) h)
    | None => Undefined
    end.

(** Modelled from the spec: [make_lua_pointer] of [lua-pointer.c] is not
    among the sources.  It fills the handle at [p] with its kind and the
    reference to the host data. *)
Definition make_lua_pointer (p : addr) (k : LuaPointerType) (data : addr) : M unit :=
  fun h =>
    match lua_pointers h !! p with
    | Some _ => Done tt (set_lua_pointers (<[p := Some (mk_LuaPointer k data)]> (lua_pointers h)) h)
    | None => Undefined
    end.

(** Modelled from the spec: [dest_lua_pointer] of [lua-pointer.c] is not
    among the sources.  A handle never owns the host data it points to; with
    the destructor argument [NULL] of every call in [ext-env.c] releasing it
    changes nothing but needs a live handle. *)
Definition dest_lua_pointer (p : addr) : M unit :=
  fun h =>
    match lua_pointers h !! p with
    | Some _ => Done tt h
    | None => Undefined
    end.

(** Modelled from the spec: [to_userdata_pointer] of [lua-pointer.c] is not
    among the sources.  The single validated retrieval of a handle: the value
    at [idx] must be a handle of the [expected] kind, then the status is [0]
    and the out-parameter receives the handle's pointer; on a value that is
    no handle, or a handle of another kind, it fails closed: the status is
    not [0] and the out-parameter is not written. *)
Definition to_userdata_pointer (s : addr) (idx : Z) (expected : LuaPointerType) : M (Z * option addr) :=
  fun h =>
    match lua_states h !! s with
    | Some L =>
        match index2value L idx with
        | Some (LLightUserdata p) =>
            match lua_pointers h !! p with
            | Some (Some lp) =>
                if decide (kind lp = expected) then Done (0, Some (pointer lp)) h
                else Done (1, None) h
            | _ => Undefined
            end
        | Some _ => Done (1, None) h
        | None => Undefined
        end
    | None => Undefined
    end.

(** Modelled from the spec: the bodies of the logging functions ([logs.c])
    are not among the sources.  [log_warn] writes the warning and returns
    the host's warning policy, not [0] when warnings are configured as fatal
    ([logs.h] declares no result, the call in [ext_require_rerun] tests
    one). *)
Definition log_warn (fmt : string) (a : list LogArg) : M Z :=
  fun h => Done (warn_status h) (set_logs (logs h ++ [mk_LogRecord LOG_WARN fmt a]) h).

(** Modelled from the spec: [log_debug] is not among the sources either (nor
    declared in [logs.h]); like the other logging functions it writes its
    message and does nothing else. *)
Definition log_debug (fmt : string) (a : list LogArg) : M unit :=
  fun h => Done tt (set_logs (logs h ++ [mk_LogRecord LOG_DEBUG fmt a]) h).

(** Reading and writing a field through an [ExtensionEnv*]. *)
Definition read_env {A} (e : addr) (field : ExtensionEnv -> A) : M A :=
  fun h =>
    match ext_envs h !! e with
    | Some env => Done (field env) h
    | None => Undefined
    end.

Definition write_env (e : addr) (upd : ExtensionEnv -> ExtensionEnv) : M unit :=
  fun h =>
    match ext_envs h !! e with
    | Some env => Done tt (set_ext_envs (<[e := upd env]> (ext_envs h)) h)
    | None => Undefined
    end.

(** A pointer variable that was declared without a value and may not have
    been written ([ExtensionEnv* e;]). *)
Definition deref (e : option addr) : M addr :=
  fun h => match e with Some a => Done a h | None => Undefined end.

(** A call of a function of another module, which returns a status. *)
Definition call (f : Host -> Z * Host) : M Z :=
  fun h => Done (f h).1 (f h).2.

(** ** What [ext-env.c] takes from the rest of the program *)

(** The macros of [ext-env.h] and [style.h] (the guest-visible names), the
    name table of [doc-struct/ast.h], and the functions of [style.c],
    [lua-lib-load.c] and [ext-loader.c].  None of them is among the sources;
    the functions may change any part of the host memory. *)
Class Collaborators := {
  EM_ITER_NUM_VAR_NAME : string;
  EM_ENV_VAR_NAME : string;
  EM_ARGS_VAR_NAME : string;
  EM_MT_NAMES_LIST_VAR_NAME : string;
  EM_IMPORT_STYLESHEET_FUNC_NAME : string;
  EM_INCLUDE_FILE_FUNC_NAME : string;
  node_tree_content_type_names : list string;
  provide_styler : addr -> Host -> Host;
  rescind_styler : addr -> Host -> Host;
  load_em_std_lib : addr -> Host -> Z * Host;
  load_extensions : addr -> ExtParams -> Host -> Z * Host
}.

(** ** [ext-env.c] *)

Definition EM_EVAL_NODE_FUNC_NAME : string := "eval".
Definition EM_REQUIRE_RUNS_FUNC_NAME : string := "requires_reiter".
Definition EM_NODE_TYPES_TABLE : string := "node_types".

(** The library names of [lualib.h]. *)
Definition LUA_LOADLIBNAME : string := "package".
Definition LUA_COLIBNAME : string := "coroutine".
Definition LUA_UTF8LIBNAME : string := "utf8".
Definition LUA_TABLIBNAME : string := "table".
Definition LUA_STRLIBNAME : string := "string".
Definition LUA_MATHLIBNAME : string := "math".
Definition LUA_DBLIBNAME : string := "debug".
Definition LUA_IOLIBNAME : string := "io".
Definition LUA_OSLIBNAME : string := "os".

(** [luaL_Reg]; [None] is the null pointer. *)
Record luaL_Reg := mk_luaL_Reg {
  name : option string;
  func : option lua_CFunction
}.

Definition lua_std_libs_universal : list luaL_Reg := [
  mk_luaL_Reg (Some "") (Some luaopen_base);
  mk_luaL_Reg (Some LUA_LOADLIBNAME) (Some luaopen_package);
  mk_luaL_Reg (Some LUA_COLIBNAME) (Some luaopen_coroutine);
  mk_luaL_Reg (Some LUA_UTF8LIBNAME) (Some luaopen_utf8);
  mk_luaL_Reg (Some LUA_TABLIBNAME) (Some luaopen_table);
  mk_luaL_Reg (Some LUA_STRLIBNAME) (Some luaopen_string);
  mk_luaL_Reg (Some LUA_MATHLIBNAME) (Some luaopen_math);
  mk_luaL_Reg (Some LUA_DBLIBNAME) (Some luaopen_debug);
  mk_luaL_Reg None None
].

Definition lua_std_libs_restriction_lvl_1 : list luaL_Reg := [
  mk_luaL_Reg (Some LUA_IOLIBNAME) (Some luaopen_io);
  mk_luaL_Reg None None
].

Definition lua_std_libs_restriction_lvl_0 : list luaL_Reg := [
  mk_luaL_Reg (Some LUA_OSLIBNAME) (Some luaopen_os);
  mk_luaL_Reg None None
].

(** The conversion of the loop counter (a [size_t]) to the [lua_Integer]
    that [lua_pushinteger] takes, both of 64 bits. *)
Definition lua_Integer_of_size_t (i : Z) : Z :=
  if i <? 2 ^ 63 then i else i - 2 ^ 64.

(** The loop of [set_globals]: [names] is what is left of the name table
    from index [i] on. *)
Fixpoint set_node_types (s : addr) (i : Z) (names : list string) : M unit :=
  match names with
  | [] => ret tt
  | n :: names' =>
      lua_pushinteger s (lua_Integer_of_size_t i) ;;
      lua_setfield s (-2) n ;;
      set_node_types s (i + 1) names'
  end.

(** [while (lib->func) { ...; lib++; }] over a table that ends with the null
    entry; running off a table without one reads past the array. *)
Fixpoint load_library_set (s : addr) (lib : list luaL_Reg) : M unit :=
  match lib with
  | [] => fun _ => Undefined
  | r :: lib' =>
      match func r with
      | None => ret tt
      | Some f =>
          match name r with
          | Some n =>
              luaL_requiref s n f true ;;
              lua_pop s 1 ;;
              load_library_set s lib'
          | None => fun _ => Undefined
          end
      end
  end.

Section ExtEnv.
Context `{Collaborators}.

Definition set_globals (e : addr) (params : ExtParams) : M unit :=
  let* s := read_env e state in
  (* Store the iteration number *)
  lua_pushinteger s 0 ;;
  lua_setglobal s EM_ITER_NUM_VAR_NAME ;;
  (* Allow the environment to access itself *)
  let* p := malloc in
  write_env e (set_selfp p) ;;
  let* p := read_env e selfp in
  make_lua_pointer p EXT_ENV e ;;
  let* p := read_env e selfp in
  lua_pushlightuserdata s p ;;
  lua_setglobal s EM_ENV_VAR_NAME ;;
  (* Allow pretty names for the node types *)
  lua_newtable s ;;
  set_node_types s 0 node_tree_content_type_names ;;
  lua_setglobal s EM_NODE_TYPES_TABLE ;;
  (* Store the args in raw form *)
  let* p := malloc in
  write_env e (set_args p) ;;
  let* p := read_env e args in
  make_lua_pointer p PARSED_ARGS (params_args params) ;;
  let* p := read_env e args in
  lua_pushlightuserdata s p ;;
  lua_setglobal s EM_ARGS_VAR_NAME ;;
  (* Store the names list *)
  let* p := malloc in
  write_env e (set_mt_names_list p) ;;
  let* p := read_env e mt_names_list in
  make_lua_pointer p MT_NAMES_LIST (params_mt_names_list params) ;;
  let* p := read_env e mt_names_list in
  lua_pushlightuserdata s p ;;
  lua_setglobal s EM_MT_NAMES_LIST_VAR_NAME.

Definition LOAD_LIBRARY_SET (params : ExtParams) (lvl : Z) (s : addr) (lib : list luaL_Reg) : M unit :=
  if sandbox_lvl params <=? lvl then load_library_set s lib else ret tt.

Definition load_em_std_functions (s : addr) : M unit :=
  lua_register s EM_EVAL_NODE_FUNC_NAME ext_eval_tree ;;
  lua_register s EM_IMPORT_STYLESHEET_FUNC_NAME ext_import_stylesheet ;;
  lua_register s EM_REQUIRE_RUNS_FUNC_NAME ext_require_rerun_ptr ;;
  lua_register s EM_INCLUDE_FILE_FUNC_NAME ext_include_file.

Definition load_libraries (s : addr) (params : ExtParams) : M Z :=
  LOAD_LIBRARY_SET params 2 s lua_std_libs_universal ;;
  LOAD_LIBRARY_SET params 1 s lua_std_libs_restriction_lvl_1 ;;
  LOAD_LIBRARY_SET params 0 s lua_std_libs_restriction_lvl_0 ;;
  load_em_std_functions s ;;
  call (load_em_std_lib s).

Definition make_ext_env (ext : addr) (params : ExtParams) : M Z :=
  let* s := luaL_newstate in
  write_env ext (set_state s) ;;
  write_env ext (set_require_extra_run true) ;;
  write_env ext (set_iter_num 0) ;;
  let* p := malloc in
  write_env ext (set_styler p) ;;
  let* p := read_env ext styler in
  make_lua_pointer p STYLER (params_styler params) ;;
  let* s := read_env ext state in
  log_debug "Getting created ext state at %p in env %p" [ArgPointer s; ArgPointer ext] ;;
  lift (provide_styler ext) ;;
  set_globals ext params ;;
  let* s := read_env ext state in
  let* rc := load_libraries s params in
  if negb (rc =? 0) then ret rc
  else
    let* s := read_env ext state in
    call (load_extensions s params).

Definition dest_ext_env (ext : addr) : M unit :=
  let* s := read_env ext state in
  lua_close s ;;
  let* p := read_env ext mt_names_list in
  dest_lua_pointer p ;;
  let* p := read_env ext mt_names_list in
  free p ;;
  let* p := read_env ext args in
  dest_lua_pointer p ;;
  let* p := read_env ext args in
  free p ;;
  let* p := read_env ext selfp in
  dest_lua_pointer p ;;
  let* p := read_env ext selfp in
  free p ;;
  let* p := read_env ext styler in
  dest_lua_pointer p ;;
  let* p := read_env ext styler in
  free p.

Definition finalise_env_for_typesetting (e : addr) : M unit :=
  lift (rescind_styler e).

Definition ext_require_rerun (s : addr) : M Z :=
  let* top := lua_gettop s in
  (if negb (top =? 0) then
     let* w := log_warn "Arguments to %s are ignored" [ArgString EM_REQUIRE_RUNS_FUNC_NAME] in
     if negb (w =? 0) then luaL_error s "Warnings are fatal" else ret tt
   else ret tt) ;;
  lua_getglobal s EM_ENV_VAR_NAME ;;
  let* r := to_userdata_pointer s (-1) EXT_ENV in
  lua_pop s 1 ;;
  (if negb (r.1 =? 0) then luaL_error s "Invalid internal value" else ret tt) ;;
  let* e := deref r.2 in
  write_env e (set_require_extra_run true) ;;
  ret 0.

End ExtEnv.

(** * Notions the properties are stated with *)

(** ** The rerun-request handler *)

Definition global_value (L : lua_State) (n : string) : LuaValue :=
  default LNil (globals L !! n).

Section NotionsOfTheHandler.
Context `{Collaborators}.

(** The warning of the handler, as the logger receives it. *)
Definition rerun_warning : LogRecord :=
  mk_LogRecord LOG_WARN "Arguments to %s are ignored" [ArgString EM_REQUIRE_RUNS_FUNC_NAME].

Definition warned (h : Host) : Host := set_logs (logs h ++ [rerun_warning]) h.

(** The part of the handler after the test of its arguments. *)
Definition resolve_and_set (s : addr) : M Z :=
  lua_getglobal s EM_ENV_VAR_NAME ;;
  let* r := to_userdata_pointer s (-1) EXT_ENV in
  lua_pop s 1 ;;
  (if negb (r.1 =? 0) then luaL_error s "Invalid internal value" else ret tt) ;;
  let* e := deref r.2 in
  write_env e (set_require_extra_run true) ;;
  ret 0.

(** What [resolve_and_set] comes to, by the value of the self-handle
    global. *)
Definition resolved (s : addr) (h : Host) : Outcome Z :=
  match lua_states h !! s with
  | None => Undefined
  | Some L =>
      match global_value L EM_ENV_VAR_NAME with
      | LLightUserdata p =>
          match lua_pointers h !! p with
          | Some (Some lp) =>
              if decide (kind lp = EXT_ENV) then
                match ext_envs h !! pointer lp with
                | Some env =>
                    Done 0 (set_ext_envs
                      (<[pointer lp := set_require_extra_run true env]> (ext_envs h)) h)
                | None => Undefined
                end
              else Raised "Invalid internal value" h
          | _ => Undefined
          end
      | _ => Raised "Invalid internal value" h
      end
  end.

End NotionsOfTheHandler.

(** ** The node-type table *)

(** The table the loop of [set_globals] has built when it started at index
    [i] with [names] left and the table [t]. *)
Fixpoint fill_node_types (i : Z) (names : list string) (t : gmap string LuaValue) : gmap string LuaValue :=
  match names with
  | [] => t
  | n :: names' => fill_node_types (i + 1) names' (<[n := LInteger (lua_Integer_of_size_t i)]> t)
  end.

(** ** The loading of libraries *)

(** The entries of a [luaL_Reg] table before its null entry. *)
Fixpoint entries (lib : list luaL_Reg) : list (string * lua_CFunction) :=
  match lib with
  | [] => []
  | r :: lib' =>
      match func r, name r with
      | Some f, Some n => (n, f) :: entries lib'
      | _, _ => []
      end
  end.

(** A table that [load_library_set] can walk: entries with a name, then the
    null entry. *)
Fixpoint terminated (lib : list luaL_Reg) : bool :=
  match lib with
  | [] => false
  | r :: lib' =>
      match func r, name r with
      | None, _ => true
      | Some _, Some _ => terminated lib'
      | Some _, None => false
      end
  end.

(** What [luaL_requiref(s, n, f, 1); lua_pop(s, 1)] leaves of a runtime. *)
Definition required (n : string) (f : lua_CFunction) (L : lua_State) : LuaValue :=
  if lua_toboolean (default LNil (loaded L !! n)) then default LNil (loaded L !! n) else LLib f.

Definition register_lib (n : string) (f : lua_CFunction) (L : lua_State) : lua_State :=
  mk_lua_State (stack L) (<[n := required n f L]> (globals L))
    (<[n := required n f L]> (loaded L)) (tables L).

Definition register_entries (es : list (string * lua_CFunction)) (L : lua_State) : lua_State :=
  foldl (fun L' nf => register_lib nf.1 nf.2 L') L es.

(** A library is registered under [n]: [package.loaded[n]] and the global
    [n] hold the same true value. *)
Definition registered (n : string) (L : lua_State) : Prop :=
  exists m, lua_toboolean m = true /\ loaded L !! n = Some m /\ globals L !! n = Some m.

(** The rows of the capability tier table, as [load_libraries] lists them:
    the highest sandbox level at which the row is loaded, and the row. *)
Definition capability_tiers : list (Z * list luaL_Reg) := [
  (2, lua_std_libs_universal);
  (1, lua_std_libs_restriction_lvl_1);
  (0, lua_std_libs_restriction_lvl_0)
].

(** The names of all the standard libraries of the three rows. *)
Definition std_lib_names : list string :=
  (entries lua_std_libs_universal ++ entries lua_std_libs_restriction_lvl_1
     ++ entries lua_std_libs_restriction_lvl_0).*1.

(** The standard libraries a runtime has loaded. *)
Definition std_libs_loaded (L : lua_State) : gset string :=
  list_to_set (filter (fun n => is_Some (loaded L !! n)) std_lib_names).

(** No standard library is loaded or bound yet, as in a runtime that comes
    from [luaL_newstate]. *)
Definition pristine (L : lua_State) : Prop :=
  forall n, n ∈ std_lib_names -> loaded L !! n = None /\ globals L !! n = None.

(** Every entry of a row is loaded, with the library of its own opener; no
    entry of a row is loaded. *)
Definition row_loaded (lib : list luaL_Reg) (L : lua_State) : Prop :=
  forall n f, (n, f) ∈ entries lib -> loaded L !! n = Some (LLib f).

Definition row_absent (lib : list luaL_Reg) (L : lua_State) : Prop :=
  forall n f, (n, f) ∈ entries lib -> loaded L !! n = None.

(** What the three [LOAD_LIBRARY_SET] lines leave of a runtime. *)
Definition tier (params : ExtParams) (lvl : Z) (lib : list luaL_Reg) (L : lua_State) : lua_State :=
  if sandbox_lvl params <=? lvl then register_entries (entries lib) L else L.

Definition tiers (params : ExtParams) (L : lua_State) : lua_State :=
  tier params 0 lua_std_libs_restriction_lvl_0
    (tier params 1 lua_std_libs_restriction_lvl_1
       (tier params 2 lua_std_libs_universal L)).

(** A collaborator that is given the runtime [s] keeps it alive and leaves
    the registrations of the standard libraries as they are. *)
Definition keeps_std_libs (s : addr) (c : Host -> Z * Host) : Prop :=
  forall h L, lua_states h !! s = Some L ->
    exists L', lua_states (c h).2 !! s = Some L' /\
      forall n, n ∈ std_lib_names ->
        loaded L' !! n = loaded L !! n /\ globals L' !! n = globals L !! n.

Section NotionsOfLoading.
Context `{Collaborators}.

(** What [load_em_std_functions] leaves of a runtime. *)
Definition std_functions (L : lua_State) : lua_State :=
  set_lua_globals
    (<[EM_INCLUDE_FILE_FUNC_NAME := LCFunction ext_include_file]>
       (<[EM_REQUIRE_RUNS_FUNC_NAME := LCFunction ext_require_rerun_ptr]>
          (<[EM_IMPORT_STYLESHEET_FUNC_NAME := LCFunction ext_import_stylesheet]>
             (<[EM_EVAL_NODE_FUNC_NAME := LCFunction ext_eval_tree]> (globals L))))) L.

(** The runtime [s] as [load_libraries] leaves it, and the standard
    libraries loaded in it. *)
Definition runtime_after_load_libraries (s : addr) (params : ExtParams) (h : Host) : option lua_State :=
  match load_libraries s params h with
  | Done _ h' => lua_states h' !! s
  | _ => None
  end.

Definition std_libs_after (s : addr) (params : ExtParams) (h : Host) : gset string :=
  match runtime_after_load_libraries s params h with
  | Some L' => std_libs_loaded L'
  | None => ∅
  end.

End NotionsOfLoading.

(** ** Creation *)

Section NotionsOfCreation.
Context `{Collaborators}.

(** [make_ext_env] up to the call of [load_libraries], whose status it
    returns. *)
Definition setup_ext_env (ext : addr) (params : ExtParams) : M Z :=
  let* s := luaL_newstate in
  write_env ext (set_state s) ;;
  write_env ext (set_require_extra_run true) ;;
  write_env ext (set_iter_num 0) ;;
  let* p := malloc in
  write_env ext (set_styler p) ;;
  let* p := read_env ext styler in
  make_lua_pointer p STYLER (params_styler params) ;;
  let* s := read_env ext state in
  log_debug "Getting created ext state at %p in env %p" [ArgPointer s; ArgPointer ext] ;;
  lift (provide_styler ext) ;;
  set_globals ext params ;;
  let* s := read_env ext state in
  load_libraries s params.

End NotionsOfCreation.

(** The same collaborators but for the extension loader. *)
Definition with_load_extensions (le : addr -> ExtParams -> Host -> Z * Host) (C : Collaborators) : Collaborators :=
  {| EM_ITER_NUM_VAR_NAME := @EM_ITER_NUM_VAR_NAME C;
     EM_ENV_VAR_NAME := @EM_ENV_VAR_NAME C;
     EM_ARGS_VAR_NAME := @EM_ARGS_VAR_NAME C;
     EM_MT_NAMES_LIST_VAR_NAME := @EM_MT_NAMES_LIST_VAR_NAME C;
     EM_IMPORT_STYLESHEET_FUNC_NAME := @EM_IMPORT_STYLESHEET_FUNC_NAME C;
     EM_INCLUDE_FILE_FUNC_NAME := @EM_INCLUDE_FILE_FUNC_NAME C;
     node_tree_content_type_names := @node_tree_content_type_names C;
     provide_styler := @provide_styler C;
     rescind_styler := @rescind_styler C;
     load_em_std_lib := @load_em_std_lib C;
     load_extensions := le |}.

(** The environment at [ext] exists, its flag and counter satisfy [P], and
    its runtime is live. *)
Definition env_inv (P : bool -> Z -> Prop) (ext : addr) (h : Host) : Prop :=
  exists env, ext_envs h !! ext = Some env /\
    P (require_extra_run env) (iter_num env) /\
    is_Some (lua_states h !! state env).

(** The flag and the counter as [make_ext_env] sets them. *)
Definition created_flags (b : bool) (n : Z) : Prop := b = true /\ n = 0.

(** Nothing is asked of the flag and the counter. *)
Definition any_flags (b : bool) (n : Z) : Prop := True.

(** The rerun flag of the environment at [ext] is set. *)
Definition flag_set (ext : addr) (h : Host) : Prop :=
  exists env, ext_envs h !! ext = Some env /\ require_extra_run env = true.

(** A property of the environments only: a step that leaves them alone
    keeps it. *)
Definition on_envs (I : Host -> Prop) : Prop :=
  forall h h', ext_envs h' = ext_envs h -> I h -> I h'.

(** Every collaborator keeps [I], whatever it is called on. *)
Definition collaborators_keep `{Collaborators} (I : Host -> Prop) : Prop :=
  (forall e h, I h -> I (provide_styler e h)) /\
  (forall e h, I h -> I (rescind_styler e h)) /\
  (forall s h, I h -> I (load_em_std_lib s h).2) /\
  (forall s params h, I h -> I (load_extensions s params h).2).

(** ** Total correctness of a step *)

Definition wp {A} (c : M A) (Q : A -> Host -> Prop) (h : Host) : Prop :=
  exists a h', c h = Done a h' /\ Q a h'.

(** ** Invariants of a step, whether it returns or raises *)

Definition preserves {A} (I : Host -> Prop) (c : M A) : Prop :=
  forall h, I h ->
    match c h with
    | Done _ h' => I h'
    | Raised _ h' => I h'
    | Undefined => True
    end.

(** ** Sequences of operations of the core *)

(** One operation on the host memory: a function of [ext-env.c] called by
    the host, the handler called by the guest, or anything else the guest
    or the Lua API does to one runtime (which then is [L]). *)
Inductive core_op :=
  | op_make_ext_env (ext : addr) (params : ExtParams)
  | op_dest_ext_env (ext : addr)
  | op_finalise_env_for_typesetting (e : addr)
  | op_ext_require_rerun (s : addr)
  | op_runtime (s : addr) (L : lua_State).

Section Operations.
Context `{Collaborators}.

Definition run_op (op : core_op) : M unit :=
  match op with
  | op_make_ext_env ext params => make_ext_env ext params ;; ret tt
  | op_dest_ext_env ext => dest_ext_env ext
  | op_finalise_env_for_typesetting e => finalise_env_for_typesetting e
  | op_ext_require_rerun s => ext_require_rerun s ;; ret tt
  | op_runtime s L => on_state s (fun _ => Some (tt, L))
  end.

(** The host memory after an operation, also when it raised a Lua error;
    nothing is known after undefined behaviour. *)
Definition after (op : core_op) (h : Host) : option Host :=
  match run_op op h with
  | Done _ h' => Some h'
  | Raised _ h' => Some h'
  | Undefined => None
  end.

(** The host memories a sequence of operations goes through. *)
Fixpoint history (ops : list core_op) (h : Host) : list Host :=
  h :: match ops with
       | [] => []
       | op :: ops' =>
           match after op h with
           | Some h' => history ops' h'
           | None => []
           end
       end.

End Operations.

(** ** A concrete instance to run the code on *)

(** The host memory [c] leaves, [h] itself when [c] does not return; the
    collaborators of the instance are written with it and the steps of
    this file. *)
Definition host_after {A} (c : M A) (h : Host) : Host :=
  match c h with
  | Done _ h' => h'
  | _ => h
  end.

(** Names for the guest-visible bindings, three content types, a styler
    that binds and unbinds its handle under a global, and loaders that
    return the statuses [lib_rc] and [ext_rc]. *)
Definition demo_with (lib_rc ext_rc : Z) : Collaborators := {|
  EM_ITER_NUM_VAR_NAME := "em_iter";
  EM_ENV_VAR_NAME := "_em_env";
  EM_ARGS_VAR_NAME := "_em_args";
  EM_MT_NAMES_LIST_VAR_NAME := "_em_mt_names";
  EM_IMPORT_STYLESHEET_FUNC_NAME := "stylesheet";
  EM_INCLUDE_FILE_FUNC_NAME := "include_file";
  node_tree_content_type_names := ["word"; "call"; "content"];
  provide_styler := fun e =>
    host_after
      (let* s := read_env e state in
       let* p := read_env e styler in
       lua_pushlightuserdata s p ;;
       lua_setglobal s "_em_styler");
  rescind_styler := fun e =>
    host_after
      (let* s := read_env e state in
       on_state s (fun L => Some (tt, push LNil L)) ;;
       lua_setglobal s "_em_styler");
  load_em_std_lib := fun s h => (lib_rc, h);
  load_extensions := fun s params h => (ext_rc, h)
|}.

Definition demo : Collaborators := demo_with 0 0.

(** A host with one [ExtensionEnv] struct at address [1], not yet
    initialised, and warnings that are not fatal. *)
Definition demo_env : ExtensionEnv := mk_ExtensionEnv 9 false 5 9 9 9 9.
Definition demo_host : Host := mk_Host ∅ ∅ {[ 1%positive := demo_env ]} [] 0.
Definition demo_params (lvl : Z) : ExtParams := mk_ExtParams lvl 21 22 23.

(** The demo host after [make_ext_env] at sandbox level 2; its runtime is
    at address [1]. *)
Definition demo_created : Host :=
  Eval vm_compute in host_after (@make_ext_env demo 1%positive (demo_params 2)) demo_host.

(** A host with one fresh runtime, at address [1]. *)
Definition demo_runtime : Host :=
  Eval vm_compute in host_after luaL_newstate demo_host.

(** ** Further notions *)

(** [h'] has the environments, the handles and the live runtimes of [h];
    what the runtimes hold may differ. *)
Definition same_shape (h h' : Host) : Prop :=
  ext_envs h' = ext_envs h /\
  lua_pointers h' = lua_pointers h /\
  dom (lua_states h') = dom (lua_states h).

(** A collaborator that writes into runtimes only: it leaves the
    environments and the handles as they are and neither creates nor closes
    a runtime. *)
Definition runtime_only (c : Host -> Host) : Prop :=
  forall h, same_shape h (c h).

(** The same collaborators but for the list of content-type names. *)
Definition with_node_names (names : list string) (C : Collaborators) : Collaborators :=
  {| EM_ITER_NUM_VAR_NAME := @EM_ITER_NUM_VAR_NAME C;
     EM_ENV_VAR_NAME := @EM_ENV_VAR_NAME C;
     EM_ARGS_VAR_NAME := @EM_ARGS_VAR_NAME C;
     EM_MT_NAMES_LIST_VAR_NAME := @EM_MT_NAMES_LIST_VAR_NAME C;
     EM_IMPORT_STYLESHEET_FUNC_NAME := @EM_IMPORT_STYLESHEET_FUNC_NAME C;
     EM_INCLUDE_FILE_FUNC_NAME := @EM_INCLUDE_FILE_FUNC_NAME C;
     node_tree_content_type_names := names;
     provide_styler := @provide_styler C;
     rescind_styler := @rescind_styler C;
     load_em_std_lib := @load_em_std_lib C;
     load_extensions := @load_extensions C |}.

(** The environment of the concrete instance once created. *)
Definition demo_created_env : ExtensionEnv := mk_ExtensionEnv 1 true 0 1 2 3 4.

(** Its runtime. *)
Definition demo_created_runtime : lua_State :=
  Eval vm_compute in default empty_lua_State (lua_states demo_created !! 1%positive).

(** The environment [env] at [ext] can be destroyed: its runtime is live
    and its four handle fields hold four different live handles. *)
Definition destroyable (ext : addr) (env : ExtensionEnv) (h : Host) : Prop :=
  ext_envs h !! ext = Some env /\
  is_Some (lua_states h !! state env) /\
  is_Some (lua_pointers h !! mt_names_list env) /\
  is_Some (lua_pointers h !! args env) /\
  is_Some (lua_pointers h !! selfp env) /\
  is_Some (lua_pointers h !! styler env) /\
  NoDup [mt_names_list env; args env; selfp env; styler env].

(** * Properties *)

(** ** The store *)

Lemma set_stack_id L : set_stack (stack L) L = L.
Proof. by destruct L. Qed.

Lemma set_stack_push v L : set_stack (stack L) (push v L) = L.
Proof. by destruct L. Qed.

Lemma set_tables_id L : set_tables (tables L) L = L.
Proof. by destruct L. Qed.

Lemma lookup_upd_state s L h : lua_states (upd_state s L h) !! s = Some L.
Proof. apply lookup_insert_eq. Qed.

Lemma lookup_upd_state_ne s s' L h :
  s ≠ s' -> lua_states (upd_state s L h) !! s' = lua_states h !! s'.
Proof. intros. by apply lookup_insert_ne. Qed.

Lemma upd_state_twice s L L' h : upd_state s L' (upd_state s L h) = upd_state s L' h.
Proof. unfold upd_state, set_lua_states; simpl. by rewrite insert_insert_eq. Qed.

Lemma upd_state_id s L h : lua_states h !! s = Some L -> upd_state s L h = h.
Proof.
  intros HL. unfold upd_state, set_lua_states. rewrite insert_id by done. by destruct h.
Qed.

Lemma on_state_eq {A} s (f : lua_State -> option (A * lua_State)) h L :
  lua_states h !! s = Some L ->
  on_state s f h =
    match f L with Some (a, L') => Done a (upd_state s L' h) | None => Undefined end.
Proof. intros HL. unfold on_state. by rewrite HL. Qed.

(** ** The rerun-request handler, case by case *)

Section Rerun.
Context `{Collaborators}.

Lemma resolve_and_set_eq s h : resolve_and_set s h = resolved s h.
Proof.
  unfold resolve_and_set, resolved.
  destruct (lua_states h !! s) as [L|] eqn:HL.
  2:{ unfold bind, lua_getglobal, on_state. by rewrite HL. }
  unfold bind at 1. unfold lua_getglobal. rewrite (on_state_eq _ _ _ L HL).
  fold (global_value L EM_ENV_VAR_NAME).
  set (v := global_value L EM_ENV_VAR_NAME).
  set (h1 := upd_state s (push v L) h).
  assert (H1 : lua_states h1 !! s = Some (push v L)) by apply lookup_upd_state.
  assert (Hpop : lua_pop s 1 h1 = Done tt h).
  { unfold lua_pop. rewrite (on_state_eq _ _ _ _ H1). simpl.
    subst h1. rewrite upd_state_twice, drop_0, set_stack_push.
    by rewrite (upd_state_id _ _ _ HL). }
  unfold bind at 1. unfold to_userdata_pointer. rewrite H1. simpl.
  destruct v as [| | | |p| | |]; simpl;
    try (unfold bind at 1; rewrite Hpop; unfold bind at 1; simpl;
         unfold luaL_error; by rewrite HL).
  destruct (lua_pointers h !! p) as [[lp|]|]; try done.
  destruct (decide (kind lp = EXT_ENV)).
  - unfold bind at 1; rewrite Hpop; unfold bind at 1; simpl.
    unfold bind, write_env. simpl.
    by destruct (ext_envs h !! pointer lp).
  - unfold bind at 1; rewrite Hpop; unfold bind at 1; simpl.
    unfold luaL_error; by rewrite HL.
Qed.

(** With no argument the handler goes straight to the self-handle; with
    arguments it warns first and stops there when the logger says that
    warnings are fatal. *)
Lemma ext_require_rerun_eq s h L :
  lua_states h !! s = Some L ->
  ext_require_rerun s h =
    match stack L with
    | [] => resolved s h
    | _ :: _ =>
        if warn_status h =? 0 then resolved s (warned h)
        else Raised "Warnings are fatal" (warned h)
    end.
Proof.
  intros HL. unfold ext_require_rerun.
  unfold bind at 1. unfold lua_gettop. rewrite (on_state_eq _ _ _ L HL).
  rewrite (upd_state_id _ _ _ HL).
  fold (resolve_and_set s).
  destruct (stack L) as [|v st]; simpl length.
  - unfold bind at 1. simpl. apply resolve_and_set_eq.
  - replace (negb (Z.of_nat (S (length st)) =? 0)) with true
      by (symmetry; apply negb_true_iff, Z.eqb_neq; lia).
    unfold bind at 1. unfold bind at 1. unfold log_warn. fold rerun_warning.
    fold (warned h).
    destruct (warn_status h =? 0); simpl.
    + apply resolve_and_set_eq.
    + unfold luaL_error. simpl. by rewrite HL.
Qed.

Lemma ext_require_rerun_dangling s h :
  lua_states h !! s = None -> ext_require_rerun s h = Undefined.
Proof.
  intros HL. unfold ext_require_rerun, bind, lua_gettop, on_state. by rewrite HL.
Qed.

(** Whatever [resolved] returns, it has changed at most one flag. *)
Lemma resolved_done s h rc h' :
  resolved s h = Done rc h' ->
  rc = 0 /\
  exists L p lp env,
    lua_states h !! s = Some L /\
    global_value L EM_ENV_VAR_NAME = LLightUserdata p /\
    lua_pointers h !! p = Some (Some lp) /\ kind lp = EXT_ENV /\
    ext_envs h !! pointer lp = Some env /\
    h' = set_ext_envs (<[pointer lp := set_require_extra_run true env]> (ext_envs h)) h.
Proof.
  unfold resolved. intros Hr.
  destruct (lua_states h !! s) as [L|]; [|done].
  destruct (global_value L EM_ENV_VAR_NAME) as [| | | |p| | |] eqn:Hg; try done.
  destruct (lua_pointers h !! p) as [[lp|]|] eqn:Hp; try done.
  destruct (decide (kind lp = EXT_ENV)) as [Hk|]; [|done].
  destruct (ext_envs h !! pointer lp) as [env|] eqn:He; [|done].
  inversion Hr; subst. split; [done|]. by exists L, p, lp, env.
Qed.

Lemma resolved_raised s h msg h' :
  resolved s h = Raised msg h' -> msg = "Invalid internal value" /\ h' = h.
Proof.
  unfold resolved. intros Hr.
  destruct (lua_states h !! s) as [L|]; [|done].
  destruct (global_value L EM_ENV_VAR_NAME) as [| | | |p| | |]; try by inversion Hr.
  destruct (lua_pointers h !! p) as [[lp|]|]; try done.
  destruct (decide (kind lp = EXT_ENV)); [|by inversion Hr].
  by destruct (ext_envs h !! pointer lp).
Qed.

End Rerun.

(** ** Rules for [wp] *)

Lemma wp_ret {A} (a : A) Q h : Q a h -> wp (ret a) Q h.
Proof. intros. by exists a, h. Qed.

Lemma wp_bind {A B} (c : M A) (k : A -> M B) Q h :
  wp c (fun a h' => wp (k a) Q h') h -> wp (bind c k) Q h.
Proof.
  intros (a & h' & Hc & b & h'' & Hk & HQ). exists b, h''. unfold bind. by rewrite Hc.
Qed.

Lemma wp_mono {A} (c : M A) (Q Q' : A -> Host -> Prop) h :
  (forall a h', Q a h' -> Q' a h') -> wp c Q h -> wp c Q' h.
Proof. intros HQ (a & h' & Hc & Ha). exists a, h'. eauto. Qed.

Lemma wp_on_state {A} s (f : lua_State -> option (A * lua_State)) Q h L a L' :
  lua_states h !! s = Some L -> f L = Some (a, L') ->
  Q a (upd_state s L' h) -> wp (on_state s f) Q h.
Proof.
  intros HL Hf HQ. exists a, (upd_state s L' h). by rewrite (on_state_eq _ _ _ L HL), Hf.
Qed.

Lemma wp_read_env {A} e (field : ExtensionEnv -> A) Q h env :
  ext_envs h !! e = Some env -> Q (field env) h -> wp (read_env e field) Q h.
Proof. intros He HQ. exists (field env), h. unfold read_env. by rewrite He. Qed.

Lemma wp_write_env e upd Q h env :
  ext_envs h !! e = Some env ->
  Q tt (set_ext_envs (<[e := upd env]> (ext_envs h)) h) -> wp (write_env e upd) Q h.
Proof. intros He HQ. eexists _, _. unfold write_env. by rewrite He. Qed.

Lemma wp_malloc Q h :
  Q (fresh (dom (lua_pointers h)))
    (set_lua_pointers (<[fresh (dom (lua_pointers h)) := None]> (lua_pointers h)) h) ->
  wp malloc Q h.
Proof. intros HQ. by eexists _, _. Qed.

Lemma wp_make_lua_pointer p k data Q h o :
  lua_pointers h !! p = Some o ->
  Q tt (set_lua_pointers (<[p := Some (mk_LuaPointer k data)]> (lua_pointers h)) h) ->
  wp (make_lua_pointer p k data) Q h.
Proof. intros Hp HQ. eexists _, _. unfold make_lua_pointer. by rewrite Hp. Qed.

Lemma wp_luaL_newstate Q h :
  Q (fresh (dom (lua_states h))) (upd_state (fresh (dom (lua_states h))) empty_lua_State h) ->
  wp luaL_newstate Q h.
Proof. intros HQ. by eexists _, _. Qed.

Lemma wp_log_debug fmt a Q h :
  Q tt (set_logs (logs h ++ [mk_LogRecord LOG_DEBUG fmt a]) h) -> wp (log_debug fmt a) Q h.
Proof. intros HQ. by eexists _, _. Qed.

Lemma wp_lift f Q h : Q tt (f h) -> wp (lift f) Q h.
Proof. intros HQ. by eexists _, _. Qed.

Lemma wp_call f Q h : Q (f h).1 (f h).2 -> wp (call f) Q h.
Proof. intros HQ. by eexists _, _. Qed.

Lemma wp_lua_setfield s idx k Q h L v rest r t :
  lua_states h !! s = Some L -> stack L = v :: rest ->
  index2value L idx = Some (LTable r) -> tables L !! r = Some t ->
  Q tt (upd_state s (set_stack rest (set_tables (<[r := table_set k v t]> (tables L)) L)) h) ->
  wp (lua_setfield s idx k) Q h.
Proof.
  intros HL Hst Hi Ht HQ. eexists _, _. unfold lua_setfield. by rewrite HL, Hst, Hi, Ht.
Qed.

Ltac lookups :=
  simpl; repeat first [ done | apply lookup_insert_eq | apply lookup_upd_state
                      | rewrite lookup_insert_eq | eassumption ].

Ltac wp_rule :=
  cbv beta;
  lazymatch goal with
  | |- wp (bind _ _) _ _ => apply wp_bind
  | |- wp (ret _) _ _ => apply wp_ret
  | |- wp (read_env _ _) _ _ => eapply wp_read_env; [ lookups | ]
  | |- wp (write_env _ _) _ _ => eapply wp_write_env; [ lookups | ]
  | |- wp malloc _ _ => apply wp_malloc
  | |- wp luaL_newstate _ _ => apply wp_luaL_newstate
  | |- wp (log_debug _ _) _ _ => apply wp_log_debug
  | |- wp (lift _) _ _ => apply wp_lift
  | |- wp (call _) _ _ => apply wp_call
  | |- wp (make_lua_pointer _ _ _) _ _ => eapply wp_make_lua_pointer; [ lookups | ]
  | |- wp (on_state _ _) _ _ => eapply wp_on_state; [ lookups | simpl; reflexivity | ]
  end.

Ltac wp_step :=
  wp_rule;
  cbn [lua_states lua_pointers ext_envs logs warn_status
       set_lua_states set_lua_pointers set_ext_envs set_logs upd_state
       state require_extra_run iter_num styler selfp args mt_names_list
       set_state set_require_extra_run set_iter_num set_styler set_selfp
       set_args set_mt_names_list].

(** ** [set_globals] *)

Lemma set_node_types_wp s names : forall i Q h L r rest t,
  lua_states h !! s = Some L ->
  stack L = LTable r :: rest ->
  tables L !! r = Some t ->
  Q tt (upd_state s (set_tables (<[r := fill_node_types i names t]> (tables L)) L) h) ->
  wp (set_node_types s i names) Q h.
Proof.
  induction names as [|n names IH]; intros i Q h L r rest t HL Hst Ht HQ; simpl.
  - apply wp_ret. simpl in HQ. rewrite insert_id, set_tables_id in HQ by done.
    by rewrite (upd_state_id _ _ _ HL) in HQ.
  - wp_step. unfold lua_pushinteger. wp_step. wp_step.
    eapply wp_lua_setfield;
      [apply lookup_upd_state | reflexivity
      | by unfold index2value; simpl; rewrite Hst | done |].
    eapply IH; [apply lookup_upd_state | simpl; done | simpl; apply lookup_insert_eq |].
    rewrite !upd_state_twice. simpl. by rewrite insert_insert_eq.
Qed.

Section SetGlobals.
Context `{Collaborators}.

(** The whole effect of [set_globals] on a live environment: three handles
    allocated, five globals bound, one table created. *)
Lemma set_globals_spec e params h env L :
  ext_envs h !! e = Some env ->
  lua_states h !! state env = Some L ->
  exists h' p1 p2 p3 r,
    set_globals e params h = Done tt h' /\
    ext_envs h' =
      <[e := mk_ExtensionEnv (state env) (require_extra_run env) (iter_num env)
               (styler env) p1 p2 p3]> (ext_envs h) /\
    lua_states h' =
      <[state env :=
          mk_lua_State (stack L)
            (<[EM_MT_NAMES_LIST_VAR_NAME := LLightUserdata p3]>
               (<[EM_ARGS_VAR_NAME := LLightUserdata p2]>
                  (<[EM_NODE_TYPES_TABLE := LTable r]>
                     (<[EM_ENV_VAR_NAME := LLightUserdata p1]>
                        (<[EM_ITER_NUM_VAR_NAME := LInteger 0]> (globals L))))))
            (loaded L)
            (<[r := fill_node_types 0 node_tree_content_type_names ∅]> (tables L))]>
        (lua_states h) /\
    logs h' = logs h /\ warn_status h' = warn_status h /\
    tables L !! r = None.
Proof.
  intros He HL.
  cut (wp (set_globals e params) (fun _ h' =>
    exists p1 p2 p3 r,
    ext_envs h' =
      <[e := mk_ExtensionEnv (state env) (require_extra_run env) (iter_num env)
               (styler env) p1 p2 p3]> (ext_envs h) /\
    lua_states h' =
      <[state env :=
          mk_lua_State (stack L)
            (<[EM_MT_NAMES_LIST_VAR_NAME := LLightUserdata p3]>
               (<[EM_ARGS_VAR_NAME := LLightUserdata p2]>
                  (<[EM_NODE_TYPES_TABLE := LTable r]>
                     (<[EM_ENV_VAR_NAME := LLightUserdata p1]>
                        (<[EM_ITER_NUM_VAR_NAME := LInteger 0]> (globals L))))))
            (loaded L)
            (<[r := fill_node_types 0 node_tree_content_type_names ∅]> (tables L))]>
        (lua_states h) /\
    logs h' = logs h /\ warn_status h' = warn_status h /\
    tables L !! r = None) h).
  { intros ([] & h' & Hrun & p1 & p2 & p3 & r & Hpost). by exists h', p1, p2, p3, r. }
  unfold set_globals.
  unfold lua_pushinteger, lua_setglobal, lua_pushlightuserdata, lua_newtable.
  repeat wp_step.
  eapply set_node_types_wp; [lookups | simpl; reflexivity | lookups | ].
  repeat wp_step.
  eexists _, _, _, _. split_and!; simpl.
  - rewrite !insert_insert_eq. reflexivity.
  - rewrite !insert_insert_eq. reflexivity.
  - done.
  - done.
  - apply not_elem_of_dom, is_fresh.
Qed.

End SetGlobals.

(** ** [load_library_set] and [load_libraries] *)

Lemma requiref_pop s n f h L :
  lua_states h !! s = Some L ->
  (luaL_requiref s n f true ;; lua_pop s 1) h = Done tt (upd_state s (register_lib n f L) h).
Proof.
  intros HL. unfold bind, luaL_requiref, lua_pop.
  rewrite (on_state_eq _ _ _ L HL). unfold register_lib, required.
  destruct (lua_toboolean (default LNil (loaded L !! n))) eqn:Hb.
  - erewrite on_state_eq by apply lookup_upd_state. simpl.
    rewrite upd_state_twice, drop_0. do 2 f_equal.
    destruct (loaded L !! n) as [m|] eqn:Hm; [|done]. simpl in *.
    unfold set_stack, set_lua_globals; simpl.
    rewrite (insert_id (loaded L)) by done.
    by destruct m as [|[]| | | | | |].
  - erewrite on_state_eq by apply lookup_upd_state. simpl.
    by rewrite upd_state_twice, drop_0.
Qed.

Lemma load_library_set_eq s lib : forall h L,
  lua_states h !! s = Some L ->
  load_library_set s lib h =
    if terminated lib then Done tt (upd_state s (register_entries (entries lib) L) h)
    else Undefined.
Proof.
  induction lib as [|r lib IH]; intros h L HL; simpl; [done|].
  destruct (func r) as [f|]; simpl.
  2:{ unfold ret. by rewrite (upd_state_id _ _ _ HL). }
  destruct (name r) as [n|]; simpl; [|done].
  change (luaL_requiref s n f true ;; lua_pop s 1 ;; load_library_set s lib)
    with (luaL_requiref s n f true ;; (lua_pop s 1 ;; load_library_set s lib)).
  assert (Hassoc : (luaL_requiref s n f true ;; lua_pop s 1 ;; load_library_set s lib) h
            = ((luaL_requiref s n f true ;; lua_pop s 1) ;; load_library_set s lib) h).
  { unfold bind. by destruct (luaL_requiref s n f true h) as [? h1| |]. }
  rewrite Hassoc. unfold bind at 1. rewrite (requiref_pop _ _ _ _ L HL).
  rewrite (IH _ (register_lib n f L)) by apply lookup_upd_state.
  by rewrite upd_state_twice.
Qed.

Section LoadLibraries.
Context `{Collaborators}.

Lemma LOAD_LIBRARY_SET_eq params lvl s lib h L :
  lua_states h !! s = Some L -> terminated lib = true ->
  LOAD_LIBRARY_SET params lvl s lib h = Done tt (upd_state s (tier params lvl lib L) h).
Proof.
  intros HL Ht. unfold LOAD_LIBRARY_SET, tier.
  destruct (sandbox_lvl params <=? lvl).
  - by rewrite (load_library_set_eq _ _ _ L HL), Ht.
  - unfold ret. by rewrite (upd_state_id _ _ _ HL).
Qed.

Lemma load_em_std_functions_eq s h L :
  lua_states h !! s = Some L ->
  load_em_std_functions s h = Done tt (upd_state s (std_functions L) h).
Proof.
  intros HL.
  cut (wp (load_em_std_functions s) (fun _ h' => h' = upd_state s (std_functions L) h) h).
  { by intros ([] & h' & -> & ->). }
  unfold load_em_std_functions, lua_register, lua_pushcfunction, lua_setglobal.
  repeat wp_step. rewrite !upd_state_twice. by destruct L.
Qed.

(** [load_libraries] always returns: with the status of [load_em_std_lib],
    which it calls on the runtime with the tiers and the four host
    functions registered. *)
Lemma load_libraries_eq s params h L :
  lua_states h !! s = Some L ->
  load_libraries s params h =
    call (load_em_std_lib s) (upd_state s (std_functions (tiers params L)) h).
Proof.
  intros HL. unfold load_libraries, tiers.
  unfold bind at 1. rewrite (LOAD_LIBRARY_SET_eq _ _ _ _ _ L HL) by done.
  unfold bind at 1. erewrite LOAD_LIBRARY_SET_eq; [|apply lookup_upd_state|done].
  unfold bind at 1. erewrite LOAD_LIBRARY_SET_eq; [|apply lookup_upd_state|done].
  unfold bind at 1. erewrite load_em_std_functions_eq by apply lookup_upd_state.
  by rewrite !upd_state_twice.
Qed.

End LoadLibraries.

(** What registering a list of entries does to [package.loaded] and to the
    globals. *)
Lemma register_lib_other n f L k :
  k ≠ n ->
  loaded (register_lib n f L) !! k = loaded L !! k /\
  globals (register_lib n f L) !! k = globals L !! k.
Proof. intros Hk. simpl. by rewrite !lookup_insert_ne. Qed.

Lemma required_true n f L : lua_toboolean (required n f L) = true.
Proof. unfold required. by destruct (lua_toboolean (default LNil (loaded L !! n))) eqn:E. Qed.

Lemma register_lib_registered n f L : registered n (register_lib n f L).
Proof.
  exists (required n f L). split; [apply required_true|].
  simpl. by rewrite !lookup_insert_eq.
Qed.

Lemma register_lib_keeps n f L k : registered k L -> registered k (register_lib n f L).
Proof.
  intros (m & Hm & Hl & Hg). destruct (decide (k = n)) as [->|Hk].
  - apply register_lib_registered.
  - exists m. destruct (register_lib_other n f L k Hk) as [-> ->]. done.
Qed.

Lemma register_entries_stack es : forall L, stack (register_entries es L) = stack L.
Proof. induction es as [|[n f] es IH]; intros L; simpl; [done|]. by rewrite IH. Qed.

Lemma register_entries_other es k : forall L,
  k ∉ es.*1 ->
  loaded (register_entries es L) !! k = loaded L !! k /\
  globals (register_entries es L) !! k = globals L !! k.
Proof.
  induction es as [|[n f] es IH]; intros L Hk; simpl; [done|].
  simpl in Hk. apply not_elem_of_cons in Hk as [Hn Hes].
  destruct (IH (register_lib n f L) Hes) as [-> ->].
  by apply register_lib_other.
Qed.

Lemma register_entries_keeps es k : forall L,
  registered k L -> registered k (register_entries es L).
Proof.
  induction es as [|[n f] es IH]; intros L Hk; simpl; [done|].
  by apply IH, register_lib_keeps.
Qed.

Lemma register_entries_registered es n f : forall L,
  (n, f) ∈ es -> registered n (register_entries es L).
Proof.
  induction es as [|[n' f'] es IH]; intros L Hin; [by apply elem_of_nil in Hin|].
  simpl. apply elem_of_cons in Hin as [Heq|Hin].
  - inversion Heq; subst. apply register_entries_keeps, register_lib_registered.
  - by apply IH.
Qed.

(** From a runtime that has not loaded [n], the entry of [n] binds the
    library of its own opener. *)
Lemma register_entries_fresh es n f : forall L,
  NoDup es.*1 -> (n, f) ∈ es -> loaded L !! n = None ->
  loaded (register_entries es L) !! n = Some (LLib f) /\
  globals (register_entries es L) !! n = Some (LLib f).
Proof.
  induction es as [|[n' f'] es IH]; intros L Hnd Hin Hl; [by apply elem_of_nil in Hin|].
  simpl in *. apply NoDup_cons in Hnd as [Hn' Hnd].
  apply elem_of_cons in Hin as [Heq|Hin].
  - inversion Heq; subst n' f'.
    destruct (register_entries_other es n (register_lib n f L) Hn') as [-> ->].
    simpl. rewrite !lookup_insert_eq. unfold required. by rewrite Hl.
  - apply IH; [done..|].
    assert (n ≠ n').
    { intros ->. apply Hn'. apply list_elem_of_fmap. by exists (n', f). }
    destruct (register_lib_other n' f' L n) as [-> _]; done.
Qed.

Lemma register_entries_loaded es k : forall L,
  is_Some (loaded (register_entries es L) !! k) <-> is_Some (loaded L !! k) \/ k ∈ es.*1.
Proof.
  induction es as [|[n f] es IH]; intros L; simpl.
  - split; [by left|]. intros [?|Hk]; [done|by apply elem_of_nil in Hk].
  - rewrite IH. simpl. rewrite elem_of_cons. destruct (decide (k = n)) as [->|Hk].
    + rewrite lookup_insert_eq. split; [|intros _; left; by eexists]. intros _. right. by left.
    + rewrite lookup_insert_ne by done.
      split; [intros [?|?]; auto | intros [?|[?|?]]; auto; done].
Qed.

(** ** The three rows *)

Ltac in_list := rewrite !elem_of_cons; repeat first [ left; reflexivity | right ].

Lemma std_lib_names_NoDup : NoDup std_lib_names.
Proof. apply (bool_decide_unpack _). by vm_compute. Qed.

Lemma tier_names_NoDup lvl lib : (lvl, lib) ∈ capability_tiers -> NoDup (entries lib).*1.
Proof.
  intros Hin. unfold capability_tiers in Hin.
  repeat (apply elem_of_cons in Hin as [Heq|Hin]; [inversion Heq; subst; clear Heq|]);
    try (apply (bool_decide_unpack _); by vm_compute).
  by apply elem_of_nil in Hin.
Qed.

Lemma tier_names_std lvl lib n :
  (lvl, lib) ∈ capability_tiers -> n ∈ (entries lib).*1 -> n ∈ std_lib_names.
Proof.
  intros Hin Hn. unfold std_lib_names. rewrite !fmap_app, !elem_of_app.
  unfold capability_tiers in Hin.
  repeat (apply elem_of_cons in Hin as [Heq|Hin]; [inversion Heq; subst; clear Heq|]);
    [by left | right; by left | right; by right | by apply elem_of_nil in Hin].
Qed.

(** A name belongs to one row only. *)
Lemma tier_names_disjoint lvl lib lvl' lib' n :
  (lvl, lib) ∈ capability_tiers -> (lvl', lib') ∈ capability_tiers ->
  n ∈ (entries lib).*1 -> n ∈ (entries lib').*1 -> lvl = lvl'.
Proof.
  intros Hin Hin' Hn Hn'. unfold capability_tiers in Hin, Hin'.
  repeat (apply elem_of_cons in Hin as [Heq|Hin]; [inversion Heq; subst; clear Heq|]);
    try (by apply elem_of_nil in Hin);
    repeat (apply elem_of_cons in Hin' as [Heq|Hin']; [inversion Heq; subst; clear Heq|]);
    try (by apply elem_of_nil in Hin'); try done;
    exfalso; simpl in Hn, Hn';
    repeat (apply elem_of_cons in Hn as [->|Hn]);
    try (by apply elem_of_nil in Hn);
    repeat (apply elem_of_cons in Hn' as [Heq|Hn']; [by inversion Heq|]);
    by apply elem_of_nil in Hn'.
Qed.

Lemma tier_in params lvl lib L n f :
  NoDup (entries lib).*1 -> (n, f) ∈ entries lib -> loaded L !! n = None ->
  sandbox_lvl params <= lvl ->
  loaded (tier params lvl lib L) !! n = Some (LLib f) /\
  globals (tier params lvl lib L) !! n = Some (LLib f).
Proof.
  intros Hnd Hin Hl Hle. unfold tier.
  replace (sandbox_lvl params <=? lvl) with true by (symmetry; by apply Z.leb_le).
  by apply register_entries_fresh.
Qed.

Lemma tier_out params lvl lib L k :
  k ∉ (entries lib).*1 \/ ~ sandbox_lvl params <= lvl ->
  loaded (tier params lvl lib L) !! k = loaded L !! k /\
  globals (tier params lvl lib L) !! k = globals L !! k.
Proof.
  intros Hout. unfold tier. destruct (Z.leb_spec (sandbox_lvl params) lvl) as [Hle|Hgt]; [|done].
  destruct Hout as [Hk|Hn]; [|done]. by apply register_entries_other.
Qed.

Lemma tier_stack params lvl lib L : stack (tier params lvl lib L) = stack L.
Proof. unfold tier. destruct (_ <=? _); [apply register_entries_stack|done]. Qed.

Lemma tier_loaded params lvl lib L k :
  is_Some (loaded (tier params lvl lib L) !! k) <->
  is_Some (loaded L !! k) \/ (sandbox_lvl params <= lvl /\ k ∈ (entries lib).*1).
Proof.
  unfold tier. destruct (Z.leb_spec (sandbox_lvl params) lvl) as [Hle|Hgt].
  - rewrite register_entries_loaded. split; (intros [?|?]; [by left|right]); [done|tauto].
  - split; [by left|]. intros [?|[? _]]; [done|lia].
Qed.

(** What the three [LOAD_LIBRARY_SET] lines do to the entry [(n, f)] of the
    row with the bound [lvl], from a runtime that has loaded nothing. *)
Lemma tiers_row params L lvl lib n f :
  pristine L -> (lvl, lib) ∈ capability_tiers -> (n, f) ∈ entries lib ->
  (sandbox_lvl params <= lvl ->
     loaded (tiers params L) !! n = Some (LLib f) /\
     globals (tiers params L) !! n = Some (LLib f)) /\
  (~ sandbox_lvl params <= lvl ->
     loaded (tiers params L) !! n = None /\ globals (tiers params L) !! n = None).
Proof.
  intros Hp Hin Hnf.
  assert (Hn : n ∈ (entries lib).*1) by (apply list_elem_of_fmap; by exists (n, f)).
  destruct (Hp n (tier_names_std _ _ _ Hin Hn)) as [Hl0 Hg0].
  assert (Hother : forall lvl' lib', (lvl', lib') ∈ capability_tiers -> lvl' ≠ lvl ->
            n ∉ (entries lib').*1).
  { intros lvl' lib' Hin' Hne Hn'. apply Hne. by eapply tier_names_disjoint. }
  assert (H2 : (2, lua_std_libs_universal) ∈ capability_tiers) by (unfold capability_tiers; in_list).
  assert (H1 : (1, lua_std_libs_restriction_lvl_1) ∈ capability_tiers) by (unfold capability_tiers; in_list).
  assert (H0 : (0, lua_std_libs_restriction_lvl_0) ∈ capability_tiers) by (unfold capability_tiers; in_list).
  pose proof (tier_names_NoDup _ _ Hin) as Hnd.
  unfold capability_tiers in Hin.
  repeat (apply elem_of_cons in Hin as [Heq|Hin]; [inversion Heq; subst lvl lib; clear Heq|]);
    [| | |by apply elem_of_nil in Hin]; unfold tiers.
  - (* the universal row *)
    destruct (tier_out params 0 lua_std_libs_restriction_lvl_0
                (tier params 1 lua_std_libs_restriction_lvl_1
                   (tier params 2 lua_std_libs_universal L)) n) as [-> ->];
      [left; by apply (Hother 0 _ H0)|].
    destruct (tier_out params 1 lua_std_libs_restriction_lvl_1
                (tier params 2 lua_std_libs_universal L) n) as [-> ->];
      [left; by apply (Hother 1 _ H1)|].
    split; intros Hlvl.
    + by apply tier_in.
    + destruct (tier_out params 2 lua_std_libs_universal L n) as [-> ->]; [by right|done].
  - (* the input/output row *)
    destruct (tier_out params 0 lua_std_libs_restriction_lvl_0
                (tier params 1 lua_std_libs_restriction_lvl_1
                   (tier params 2 lua_std_libs_universal L)) n) as [-> ->];
      [left; by apply (Hother 0 _ H0)|].
    destruct (tier_out params 2 lua_std_libs_universal L n) as [Hl2 Hg2];
      [left; by apply (Hother 2 _ H2)|].
    split; intros Hlvl.
    + apply tier_in; [done..|by rewrite Hl2|done].
    + destruct (tier_out params 1 lua_std_libs_restriction_lvl_1
                  (tier params 2 lua_std_libs_universal L) n) as [-> ->]; [by right|].
      by rewrite Hl2, Hg2.
  - (* the operating-system row *)
    destruct (tier_out params 2 lua_std_libs_universal L n) as [Hl2 Hg2];
      [left; by apply (Hother 2 _ H2)|].
    destruct (tier_out params 1 lua_std_libs_restriction_lvl_1
                (tier params 2 lua_std_libs_universal L) n) as [Hl1 Hg1];
      [left; by apply (Hother 1 _ H1)|].
    split; intros Hlvl.
    + apply tier_in; [done..|by rewrite Hl1, Hl2|done].
    + destruct (tier_out params 0 lua_std_libs_restriction_lvl_0
                  (tier params 1 lua_std_libs_restriction_lvl_1
                     (tier params 2 lua_std_libs_universal L)) n) as [-> ->]; [by right|].
      by rewrite Hl1, Hg1, Hl2, Hg2.
Qed.

Lemma tiers_loaded params L k :
  is_Some (loaded (tiers params L) !! k) <->
  is_Some (loaded L !! k) \/
  exists lvl lib, (lvl, lib) ∈ capability_tiers /\
    sandbox_lvl params <= lvl /\ k ∈ (entries lib).*1.
Proof.
  unfold tiers. rewrite !tier_loaded. unfold capability_tiers. split.
  - intros [[[?|[? ?]]|[? ?]]|[? ?]]; [by left|right..].
    + exists 2, lua_std_libs_universal. split; [in_list|done].
    + exists 1, lua_std_libs_restriction_lvl_1. split; [in_list|done].
    + exists 0, lua_std_libs_restriction_lvl_0. split; [in_list|done].
  - intros [?|(lvl & lib & Hin & Hle & Hk)]; [by do 3 left|].
    repeat (apply elem_of_cons in Hin as [Heq|Hin]; [inversion Heq; subst lvl lib; clear Heq|]);
      [| | |by apply elem_of_nil in Hin]; tauto.
Qed.

Lemma tiers_stack params L : stack (tiers params L) = stack L.
Proof. unfold tiers. by rewrite !tier_stack. Qed.

Section LoadLibrariesFinal.
Context `{Collaborators}.

Lemma std_functions_loaded L : loaded (std_functions L) = loaded L.
Proof. done. Qed.

Lemma std_functions_globals L n :
  n ∈ std_lib_names ->
  EM_IMPORT_STYLESHEET_FUNC_NAME ∉ std_lib_names ->
  EM_INCLUDE_FILE_FUNC_NAME ∉ std_lib_names ->
  globals (std_functions L) !! n = globals L !! n.
Proof.
  intros Hn Himp Hinc. simpl.
  assert (EM_EVAL_NODE_FUNC_NAME ∉ std_lib_names)
    by (apply (bool_decide_unpack _); by vm_compute).
  assert (EM_REQUIRE_RUNS_FUNC_NAME ∉ std_lib_names)
    by (apply (bool_decide_unpack _); by vm_compute).
  rewrite !lookup_insert_ne; [done|by intros <-..].
Qed.

(** [load_libraries] returns, and under [keeps_std_libs] the standard
    libraries of the final runtime are those the three lines registered. *)
Lemma load_libraries_final s params h L :
  lua_states h !! s = Some L ->
  keeps_std_libs s (load_em_std_lib s) ->
  exists rc h' L',
    load_libraries s params h = Done rc h' /\
    lua_states h' !! s = Some L' /\
    forall n, n ∈ std_lib_names ->
      loaded L' !! n = loaded (tiers params L) !! n /\
      globals L' !! n = globals (std_functions (tiers params L)) !! n.
Proof.
  intros HL Hk. rewrite (load_libraries_eq _ _ _ L HL). unfold call.
  destruct (Hk (upd_state s (std_functions (tiers params L)) h) _ (lookup_upd_state _ _ _))
    as (L' & HL' & Hsame).
  eexists _, _, L'. split; [done|]. split; [done|].
  intros n Hn. destruct (Hsame n Hn) as [-> ->]. done.
Qed.

Lemma std_libs_after_elem s params h L n :
  lua_states h !! s = Some L ->
  keeps_std_libs s (load_em_std_lib s) ->
  n ∈ std_libs_after s params h <->
  n ∈ std_lib_names /\ is_Some (loaded (tiers params L) !! n).
Proof.
  intros HL Hk.
  destruct (load_libraries_final s params h L HL Hk) as (rc & h' & L' & Hrun & HL' & Hsame).
  unfold std_libs_after, runtime_after_load_libraries. rewrite Hrun, HL'.
  unfold std_libs_loaded. rewrite elem_of_list_to_set, list_elem_of_filter.
  split; intros [Ha Hb]; split; try done.
  - destruct (Hsame n Hb) as [<- _]. done.
  - destruct (Hsame n Ha) as [-> _]. done.
Qed.

End LoadLibrariesFinal.

(** ** Steps that cannot clear the rerun flag *)

Lemma preserves_ret {A} I (a : A) : preserves I (ret a).
Proof. by intros h Hh. Qed.

Lemma preserves_bind {A B} I (c : M A) (k : A -> M B) :
  preserves I c -> (forall a, preserves I (k a)) -> preserves I (bind c k).
Proof.
  intros Hc Hk h Hh. unfold bind. specialize (Hc h Hh).
  destruct (c h) as [a h'| |]; [|done..]. by apply Hk.
Qed.

Lemma flag_set_on_envs ext : on_envs (flag_set ext).
Proof. intros h h' Heq (env & He & Hf). exists env. by rewrite Heq. Qed.

Lemma preserves_frame {A} I (c : M A) :
  on_envs I ->
  (forall h, match c h with
             | Done _ h' => ext_envs h' = ext_envs h
             | Raised _ h' => ext_envs h' = ext_envs h
             | Undefined => True
             end) ->
  preserves I c.
Proof.
  intros HI Hc h Hh. specialize (Hc h).
  destruct (c h) as [a h'|msg h'|]; [| |done]; by apply (HI h).
Qed.

Section Frames.
Context (I : Host -> Prop) (HI : on_envs I).

Lemma preserves_on_state {A} s (f : lua_State -> option (A * lua_State)) :
  preserves I (on_state s f).
Proof.
  apply preserves_frame; [done|]. intros h. unfold on_state.
  destruct (lua_states h !! s) as [L|]; [|done]. by destruct (f L) as [[a L']|].
Qed.

Lemma preserves_lua_setfield s idx k : preserves I (lua_setfield s idx k).
Proof.
  apply preserves_frame; [done|]. intros h. unfold lua_setfield.
  destruct (lua_states h !! s) as [L|]; [|done].
  destruct (stack L) as [|v rest]; [done|].
  destruct (index2value L idx) as [[]|]; try done.
  by destruct (tables L !! r).
Qed.

Lemma preserves_luaL_error {A} s msg : preserves I (@luaL_error A s msg).
Proof.
  apply preserves_frame; [done|]. intros h. unfold luaL_error.
  by destruct (lua_states h !! s).
Qed.

Lemma preserves_luaL_newstate : preserves I luaL_newstate.
Proof. by apply preserves_frame. Qed.

Lemma preserves_lua_close s : preserves I (lua_close s).
Proof.
  apply preserves_frame; [done|]. intros h. unfold lua_close.
  by destruct (lua_states h !! s).
Qed.

Lemma preserves_malloc : preserves I malloc.
Proof. by apply preserves_frame. Qed.

Lemma preserves_free p : preserves I (free p).
Proof.
  apply preserves_frame; [done|]. intros h. unfold free. by destruct (lua_pointers h !! p).
Qed.

Lemma preserves_make_lua_pointer p k data : preserves I (make_lua_pointer p k data).
Proof.
  apply preserves_frame; [done|]. intros h. unfold make_lua_pointer.
  by destruct (lua_pointers h !! p).
Qed.

Lemma preserves_dest_lua_pointer p : preserves I (dest_lua_pointer p).
Proof.
  apply preserves_frame; [done|]. intros h. unfold dest_lua_pointer.
  by destruct (lua_pointers h !! p).
Qed.

Lemma preserves_to_userdata_pointer s idx k : preserves I (to_userdata_pointer s idx k).
Proof.
  apply preserves_frame; [done|]. intros h. unfold to_userdata_pointer.
  destruct (lua_states h !! s) as [L|]; [|done].
  destruct (index2value L idx) as [[]|]; try done.
  destruct (lua_pointers h !! p) as [[lp|]|]; try done. by destruct (decide _).
Qed.

Lemma preserves_log_warn fmt a : preserves I (log_warn fmt a).
Proof. by apply preserves_frame. Qed.

Lemma preserves_log_debug fmt a : preserves I (log_debug fmt a).
Proof. by apply preserves_frame. Qed.

Lemma preserves_read_env {A} e (field : ExtensionEnv -> A) : preserves I (read_env e field).
Proof.
  apply preserves_frame; [done|]. intros h. unfold read_env. by destruct (ext_envs h !! e).
Qed.

Lemma preserves_deref e : preserves I (deref e).
Proof. apply preserves_frame; [done|]. intros h. by destruct e. Qed.

Lemma preserves_set_node_types s names : forall i, preserves I (set_node_types s i names).
Proof.
  induction names as [|n names IH]; intros i; simpl; [apply preserves_ret|].
  apply preserves_bind; [apply preserves_on_state|]. intros _.
  apply preserves_bind; [apply preserves_lua_setfield|]. intros _. apply IH.
Qed.

Lemma preserves_load_library_set s lib : preserves I (load_library_set s lib).
Proof.
  induction lib as [|r lib IH]; simpl; [by intros h Hh|].
  destruct (func r) as [f|]; [|apply preserves_ret].
  destruct (name r) as [n|]; [|by intros h Hh].
  apply preserves_bind; [apply preserves_on_state|]. intros _.
  apply preserves_bind; [apply preserves_on_state|]. intros _. apply IH.
Qed.

End Frames.

(** Writing a field keeps the flag set unless the flag itself is cleared. *)
Lemma preserves_write_env ext e upd :
  (forall env, require_extra_run env = true -> require_extra_run (upd env) = true) ->
  preserves (flag_set ext) (write_env e upd).
Proof.
  intros Hupd h (env & He & Hf). unfold write_env.
  destruct (ext_envs h !! e) as [env'|] eqn:He'; [|done]. simpl.
  destruct (decide (ext = e)) as [->|Hne].
  - exists (upd env'). simpl. rewrite lookup_insert_eq. split; [done|].
    apply Hupd. rewrite He in He'. by inversion He'; subst.
  - exists env. simpl. by rewrite lookup_insert_ne.
Qed.

Lemma preserves_lift I f : (forall h, I h -> I (f h)) -> preserves I (lift f).
Proof. intros Hf h Hh. by apply Hf. Qed.

Lemma preserves_call I f : (forall h, I h -> I (f h).2) -> preserves I (call f).
Proof. intros Hf h Hh. by apply Hf. Qed.

Ltac destruct_if :=
  match goal with |- context [if ?b then _ else _] => destruct b end.

Ltac pres_step :=
  lazymatch goal with
  | |- preserves _ (ret _) => apply preserves_ret
  | |- preserves _ (bind _ _) => apply preserves_bind; [|intros ?]
  | |- preserves _ (on_state _ _) => apply preserves_on_state
  | |- preserves _ (lua_setfield _ _ _) => apply preserves_lua_setfield
  | |- preserves _ (luaL_error _ _) => apply preserves_luaL_error
  | |- preserves _ luaL_newstate => apply preserves_luaL_newstate
  | |- preserves _ (lua_close _) => apply preserves_lua_close
  | |- preserves _ malloc => apply preserves_malloc
  | |- preserves _ (free _) => apply preserves_free
  | |- preserves _ (make_lua_pointer _ _ _) => apply preserves_make_lua_pointer
  | |- preserves _ (dest_lua_pointer _) => apply preserves_dest_lua_pointer
  | |- preserves _ (to_userdata_pointer _ _ _) => apply preserves_to_userdata_pointer
  | |- preserves _ (log_warn _ _) => apply preserves_log_warn
  | |- preserves _ (log_debug _ _) => apply preserves_log_debug
  | |- preserves _ (read_env _ _) => apply preserves_read_env
  | |- preserves _ (deref _) => apply preserves_deref
  | |- preserves _ (set_node_types _ _ _) => apply preserves_set_node_types
  | |- preserves _ (load_library_set _ _) => apply preserves_load_library_set
  | |- preserves _ (write_env _ _) => apply preserves_write_env; by intros []
  | |- preserves _ (if _ then _ else _) => destruct_if
  | |- on_envs _ => apply flag_set_on_envs
  | |- preserves _ _ =>
      progress unfold lua_pushinteger, lua_pushlightuserdata, lua_pushcfunction,
        lua_setglobal, lua_getglobal, lua_newtable, lua_gettop, lua_pop,
        lua_register, luaL_requiref
  end.

Ltac pres := repeat pres_step.

Section FlagInvariant.
Context `{Collaborators}.
Context (ext : addr).

Lemma preserves_set_globals e params : preserves (flag_set ext) (set_globals e params).
Proof. unfold set_globals. pres. Qed.

Lemma preserves_load_libraries s params :
  collaborators_keep (flag_set ext) ->
  preserves (flag_set ext) (load_libraries s params).
Proof.
  intros (_ & _ & Hlib & _). unfold load_libraries, LOAD_LIBRARY_SET, load_em_std_functions.
  pres. apply preserves_call, Hlib.
Qed.

Lemma preserves_make_ext_env e params :
  collaborators_keep (flag_set ext) ->
  preserves (flag_set ext) (make_ext_env e params).
Proof.
  intros Hc. pose proof Hc as (Hps & _ & _ & Hle). unfold make_ext_env.
  pres.
  - apply preserves_lift, Hps.
  - apply preserves_set_globals.
  - by apply preserves_load_libraries.
  - apply preserves_call, Hle.
Qed.

Lemma preserves_dest_ext_env e : preserves (flag_set ext) (dest_ext_env e).
Proof. unfold dest_ext_env. pres. Qed.

Lemma preserves_finalise e :
  collaborators_keep (flag_set ext) ->
  preserves (flag_set ext) (finalise_env_for_typesetting e).
Proof. intros (_ & Hrs & _). apply preserves_lift, Hrs. Qed.

Lemma preserves_ext_require_rerun s : preserves (flag_set ext) (ext_require_rerun s).
Proof.
  unfold ext_require_rerun. pres.
Qed.

Lemma preserves_run_op op :
  collaborators_keep (flag_set ext) -> preserves (flag_set ext) (run_op op).
Proof.
  intros Hc. destruct op; simpl.
  - apply preserves_bind; [by apply preserves_make_ext_env|intros; apply preserves_ret].
  - apply preserves_dest_ext_env.
  - by apply preserves_finalise.
  - apply preserves_bind; [apply preserves_ext_require_rerun|intros; apply preserves_ret].
  - pres.
Qed.

Lemma history_flag_set ops : forall h,
  collaborators_keep (flag_set ext) -> flag_set ext h ->
  Forall (flag_set ext) (history ops h).
Proof.
  induction ops as [|op ops IH]; intros h Hc Hh; simpl.
  - by apply Forall_cons.
  - apply Forall_cons. split; [done|]. unfold after.
    pose proof (preserves_run_op op Hc h Hh) as Hop.
    destruct (run_op op h) as [a h'|msg h'|]; [by apply IH..|done].
Qed.

End FlagInvariant.

(** ** [make_ext_env] *)

Lemma bind_assoc {A B C} (c : M A) (k1 : A -> M B) (k2 : B -> M C) h :
  bind (bind c k1) k2 h = bind c (fun a => bind (k1 a) k2) h.
Proof. unfold bind. by destruct (c h). Qed.

Lemma bind_ext {A B} (c : M A) (k k' : A -> M B) h :
  (forall a h', k a h' = k' a h') -> bind c k h = bind c k' h.
Proof. intros Hk. unfold bind. by destruct (c h). Qed.

Lemma env_inv_upd_state P ext s L h :
  is_Some (lua_states h !! s) -> env_inv P ext h -> env_inv P ext (upd_state s L h).
Proof.
  intros Hs (env & He & HP & Hlive). exists env. split; [done|]. split; [done|].
  simpl. destruct (decide (s = state env)) as [->|Hne].
  - rewrite lookup_insert_eq. by eexists.
  - by rewrite lookup_insert_ne.
Qed.

Section MakeExtEnv.
Context `{Collaborators}.

(** [make_ext_env] is its set-up, then the test of the status, then the
    extension loader. *)
Lemma make_ext_env_split ext params h :
  make_ext_env ext params h =
    (let* rc := setup_ext_env ext params in
     if negb (rc =? 0) then ret rc
     else
       let* s := read_env ext state in
       call (load_extensions s params)) h.
Proof.
  unfold make_ext_env, setup_ext_env.
  repeat (rewrite bind_assoc; apply bind_ext; intros ? ?).
  done.
Qed.

(** The set-up returns, with the status of [load_libraries], when the two
    collaborators it calls keep the environment and its runtime. *)
Lemma setup_ext_env_run (P : bool -> Z -> Prop) ext params h :
  P true 0 ->
  is_Some (ext_envs h !! ext) ->
  (forall h, env_inv P ext h -> env_inv P ext (provide_styler ext h)) ->
  (forall s h, env_inv P ext h -> env_inv P ext (load_em_std_lib s h).2) ->
  exists s3 h3 rc1 h4,
    load_libraries s3 params h3 = Done rc1 h4 /\
    setup_ext_env ext params h = Done rc1 h4 /\
    env_inv P ext h4.
Proof.
  intros HP [env0 He0] Hps Hlib.
  cut (wp (setup_ext_env ext params) (fun rc1 h4 =>
         exists s3 h3, load_libraries s3 params h3 = Done rc1 h4 /\ env_inv P ext h4) h).
  { intros (rc1 & h4 & Hrun & s3 & h3 & Hll & Hinv). by exists s3, h3, rc1, h4. }
  unfold setup_ext_env. repeat wp_step.
  match goal with |- wp _ _ (provide_styler ext ?X) =>
    assert (Hinv2 : env_inv P ext (provide_styler ext X));
      [apply Hps|set (h2 := provide_styler ext X) in *; clearbody h2]
  end.
  { eexists. split; [lookups|]. simpl. split; [done|]. rewrite lookup_insert_eq. by eexists. }
  destruct Hinv2 as (env2 & He2 & HP2 & L2 & HL2).
  destruct (set_globals_spec ext params h2 env2 L2 He2 HL2)
    as (h3 & p1 & p2 & p3 & r & Hsg & Henvs & Hstates & _).
  exists tt, h3. split; [done|]. wp_step.
  eapply wp_read_env; [by rewrite Henvs, lookup_insert_eq|]. simpl.
  assert (HL3 : is_Some (lua_states h3 !! state env2))
    by (rewrite Hstates, lookup_insert_eq; by eexists).
  destruct HL3 as [L3 HL3].
  unfold wp. rewrite (load_libraries_eq _ _ _ L3 HL3). unfold call.
  eexists _, _. split; [reflexivity|].
  exists (state env2), h3. split; [by rewrite (load_libraries_eq _ _ _ L3 HL3)|].
  apply Hlib, env_inv_upd_state; [by eexists|].
  eexists. split; [by rewrite Henvs, lookup_insert_eq|]. simpl. split; [done|by eexists].
Qed.

(** The whole function returns when its collaborators keep the environment
    and its runtime; it ends in [load_extensions] exactly when the set-up
    returned [0]. *)
Lemma make_ext_env_run (P : bool -> Z -> Prop) ext params h :
  P true 0 ->
  is_Some (ext_envs h !! ext) ->
  (forall h, env_inv P ext h -> env_inv P ext (provide_styler ext h)) ->
  (forall s h, env_inv P ext h -> env_inv P ext (load_em_std_lib s h).2) ->
  exists s3 h3 rc1 h4 env4,
    load_libraries s3 params h3 = Done rc1 h4 /\
    setup_ext_env ext params h = Done rc1 h4 /\
    env_inv P ext h4 /\ ext_envs h4 !! ext = Some env4 /\
    make_ext_env ext params h =
      if rc1 =? 0 then call (load_extensions (state env4) params) h4 else Done rc1 h4.
Proof.
  intros HP He Hps Hlib.
  destruct (setup_ext_env_run P ext params h HP He Hps Hlib)
    as (s3 & h3 & rc1 & h4 & Hll & Hsetup & Hinv).
  pose proof Hinv as (env4 & He4 & _).
  exists s3, h3, rc1, h4, env4. split_and!; try done.
  rewrite make_ext_env_split. unfold bind at 1. rewrite Hsetup.
  destruct (rc1 =? 0); simpl; [|done].
  unfold bind, read_env. by rewrite He4.
Qed.

End MakeExtEnv.

(** * The claims *)

(** ** The rerun-request handler *)

Section HandlerClaims.
Context `{Collaborators}.

(** C2.  Called with no argument, the handler looks up the self-handle under
    the global [EM_ENV_VAR_NAME] and checks its tag.  When the global holds
    a handle tagged [EXT_ENV], the handler sets [require_extra_run] of the
    environment the handle points to, changes nothing else and returns no
    result ([0]).  When the global holds a handle with another tag, or
    anything that is no handle, the handler raises "Invalid internal value"
    and the host memory is as before the call: the flag is not written. *)
Theorem ext_require_rerun_no_arguments s h L :
  lua_states h !! s = Some L -> stack L = [] ->
  (forall p lp env,
     global_value L EM_ENV_VAR_NAME = LLightUserdata p ->
     lua_pointers h !! p = Some (Some lp) -> kind lp = EXT_ENV ->
     ext_envs h !! pointer lp = Some env ->
     ext_require_rerun s h =
       Done 0 (set_ext_envs
                 (<[pointer lp := set_require_extra_run true env]> (ext_envs h)) h)) /\
  (forall p lp,
     global_value L EM_ENV_VAR_NAME = LLightUserdata p ->
     lua_pointers h !! p = Some (Some lp) -> kind lp ≠ EXT_ENV ->
     ext_require_rerun s h = Raised "Invalid internal value" h) /\
  ((forall p, global_value L EM_ENV_VAR_NAME ≠ LLightUserdata p) ->
     ext_require_rerun s h = Raised "Invalid internal value" h).
Proof.
  intros HL Hst. rewrite (ext_require_rerun_eq s h L HL), Hst.
  unfold resolved. rewrite HL. split_and!.
  - intros p lp env -> -> Hk ->. by rewrite decide_True.
  - intros p lp -> -> Hk. by rewrite decide_False.
  - intros Hno. destruct (global_value L EM_ENV_VAR_NAME) as [| | | |p| | |]; try done.
    by destruct (Hno p).
Qed.

(** C6.  Called with one or more arguments, the handler first writes its
    warning through [log_warn].  When that call returns a value other than
    [0], the handler raises "Warnings are fatal" and does nothing else.
    When it returns [0], the handler goes on as it does without arguments.
    In no case is the call a silent no-op: whenever it returns or raises,
    the warning is in the log, so the host memory is not the one before the
    call. *)
Theorem ext_require_rerun_arguments s h L :
  lua_states h !! s = Some L -> stack L ≠ [] ->
  (warn_status h ≠ 0 ->
     ext_require_rerun s h = Raised "Warnings are fatal" (warned h)) /\
  (warn_status h = 0 -> ext_require_rerun s h = resolved s (warned h)) /\
  match ext_require_rerun s h with
  | Done _ h' => logs h' = logs h ++ [rerun_warning] /\ h' ≠ h
  | Raised _ h' => logs h' = logs h ++ [rerun_warning] /\ h' ≠ h
  | Undefined => True
  end.
Proof.
  intros HL Hst. rewrite (ext_require_rerun_eq s h L HL).
  destruct (stack L) as [|v st]; [done|].
  assert (Hne : forall h', logs h' = logs h ++ [rerun_warning] -> h' ≠ h).
  { intros h' Hl ->. apply (f_equal length) in Hl. rewrite length_app in Hl.
    simpl in Hl. lia. }
  split_and!.
  - intros Hw. by rewrite (proj2 (Z.eqb_neq _ _) Hw).
  - intros ->. done.
  - destruct (warn_status h =? 0).
    + destruct (resolved s (warned h)) as [rc h'|msg h'|] eqn:Hr; [| |done].
      * apply resolved_done in Hr as (_ & L' & p & lp & env & _ & _ & _ & _ & _ & ->).
        split; [done|]. by apply Hne.
      * apply resolved_raised in Hr as [_ ->]. split; [done|]. by apply Hne.
    + split; [done|]. by apply Hne.
Qed.

(** C10.  A call of the handler that returns has returned [0] results, has
    left every runtime (so the Lua stack) and every handle as they were,
    and has changed one environment only, the one the self-handle points
    to: there the flag is set and the runtime pointer, the iteration
    counter and the four handles are as before. *)
Theorem ext_require_rerun_frame s h rc h' :
  ext_require_rerun s h = Done rc h' ->
  rc = 0 /\
  lua_states h' = lua_states h /\
  lua_pointers h' = lua_pointers h /\
  exists L p lp env env',
    lua_states h !! s = Some L /\
    global_value L EM_ENV_VAR_NAME = LLightUserdata p /\
    lua_pointers h !! p = Some (Some lp) /\ kind lp = EXT_ENV /\
    ext_envs h !! pointer lp = Some env /\
    ext_envs h' = <[pointer lp := env']> (ext_envs h) /\
    require_extra_run env' = true /\
    state env' = state env /\ iter_num env' = iter_num env /\
    selfp env' = selfp env /\ styler env' = styler env /\
    args env' = args env /\ mt_names_list env' = mt_names_list env.
Proof.
  intros Hrun. destruct (lua_states h !! s) as [L|] eqn:HL.
  2:{ by rewrite ext_require_rerun_dangling in Hrun. }
  rewrite (ext_require_rerun_eq s h L HL) in Hrun.
  assert (Hres : exists h1, resolved s h1 = Done rc h' /\
            lua_states h1 = lua_states h /\ lua_pointers h1 = lua_pointers h /\
            ext_envs h1 = ext_envs h).
  { destruct (stack L); [by exists h|].
    destruct (warn_status h =? 0); [by exists (warned h)|done]. }
  destruct Hres as (h1 & Hr & Hs1 & Hp1 & He1).
  apply resolved_done in Hr as (-> & L1 & p & lp & env & HL1 & Hg & Hp & Hk & He & ->).
  rewrite Hs1, HL in HL1. inversion HL1; subst L1.
  split_and!; try done.
  exists L, p, lp, env, (set_require_extra_run true env).
  rewrite <- Hp1, <- He1. by split_and!.
Qed.

End HandlerClaims.

(** On the host that [make_ext_env] has built, the call without arguments
    returns and sets the flag of the environment at [1]. *)
Lemma ext_require_rerun_no_arguments_witness :
  @ext_require_rerun demo 1%positive demo_created =
    Done 0 (set_ext_envs
      (<[1%positive := mk_ExtensionEnv 1 true 0 1 2 3 4]> (ext_envs demo_created))
      demo_created).
Proof.
  refine (proj1 (@ext_require_rerun_no_arguments demo 1%positive demo_created _ _ _)
            2%positive (mk_LuaPointer EXT_ENV 1) (mk_ExtensionEnv 1 true 0 1 2 3 4) _ _ _ _);
    reflexivity.
Defined.

(** On the same host with one argument on the stack, the warning is written
    and the call goes on. *)
Lemma ext_require_rerun_arguments_witness :
  @ext_require_rerun demo 1%positive
      (upd_state 1%positive (mk_lua_State [LInteger 7] ∅ ∅ ∅) demo_created) =
    @resolved demo 1%positive
      (warned (upd_state 1%positive (mk_lua_State [LInteger 7] ∅ ∅ ∅) demo_created)).
Proof.
  refine (proj1 (proj2 (@ext_require_rerun_arguments demo 1%positive
            (upd_state 1%positive (mk_lua_State [LInteger 7] ∅ ∅ ∅) demo_created)
            (mk_lua_State [LInteger 7] ∅ ∅ ∅) _ _)) _);
    [reflexivity | discriminate | reflexivity].
Defined.

Lemma ext_require_rerun_frame_witness :
  lua_states (set_ext_envs
      (<[1%positive := mk_ExtensionEnv 1 true 0 1 2 3 4]> (ext_envs demo_created))
      demo_created) = lua_states demo_created.
Proof.
  refine (proj1 (proj2 (@ext_require_rerun_frame demo 1%positive demo_created 0 _ _))).
  vm_compute. reflexivity.
Defined.

(** ** Creation *)

Section CreationClaims.
Context `{C : Collaborators}.

(** C1.  [make_ext_env] returns, and whatever status it returns (so also on
    success), for every sandbox level and every other parameter, the
    environment has [require_extra_run] true and [iter_num] [0]; this for
    collaborators that keep an environment in that state and do not free
    its runtime. *)
Theorem make_ext_env_initial_flags ext params h :
  is_Some (ext_envs h !! ext) ->
  (forall h, env_inv created_flags ext h -> env_inv created_flags ext (provide_styler ext h)) ->
  (forall s h, env_inv created_flags ext h -> env_inv created_flags ext (load_em_std_lib s h).2) ->
  (forall s h, env_inv created_flags ext h ->
     env_inv created_flags ext (load_extensions s params h).2) ->
  exists rc h' env',
    make_ext_env ext params h = Done rc h' /\
    ext_envs h' !! ext = Some env' /\
    require_extra_run env' = true /\ iter_num env' = 0.
Proof.
  intros He Hps Hlib Hle.
  destruct (make_ext_env_run created_flags ext params h (conj eq_refl eq_refl) He Hps Hlib)
    as (s3 & h3 & rc1 & h4 & env4 & _ & _ & Hinv & He4 & ->).
  destruct (rc1 =? 0).
  - apply (Hle (state env4)) in Hinv as (env' & He' & [Hf Hi] & _).
    unfold call. by eexists _, _, env'.
  - destruct Hinv as (env' & He' & [Hf Hi] & _). by exists rc1, h4, env'.
Qed.

(** C8.  [make_ext_env] returns.  When [load_libraries] returned a status
    other than [0], that status is the result and the host memory is the
    one [load_libraries] left: the same whatever the extension loader is,
    which is not called.  When [load_libraries] returned [0], the result is
    the status of [load_extensions], called on the runtime of the
    environment, and the host memory is the one it left.  This for a styler
    and a library loader that do not free the environment or its runtime. *)
Theorem make_ext_env_status ext params h :
  is_Some (ext_envs h !! ext) ->
  (forall h, env_inv any_flags ext h -> env_inv any_flags ext (provide_styler ext h)) ->
  (forall s h, env_inv any_flags ext h -> env_inv any_flags ext (load_em_std_lib s h).2) ->
  exists s3 h3 rc1 h4 env4,
    load_libraries s3 params h3 = Done rc1 h4 /\
    ext_envs h4 !! ext = Some env4 /\
    (rc1 ≠ 0 ->
       make_ext_env ext params h = Done rc1 h4 /\
       forall le, @make_ext_env (with_load_extensions le C) ext params h = Done rc1 h4) /\
    (rc1 = 0 ->
       make_ext_env ext params h =
         Done (load_extensions (state env4) params h4).1
              (load_extensions (state env4) params h4).2).
Proof.
  intros He Hps Hlib.
  destruct (make_ext_env_run any_flags ext params h I He Hps Hlib)
    as (s3 & h3 & rc1 & h4 & env4 & Hll & Hsetup & Hinv & He4 & Hrun).
  exists s3, h3, rc1, h4, env4. split_and!; try done.
  - intros Hrc. apply Z.eqb_neq in Hrc. rewrite Hrc in Hrun. split; [done|].
    intros le.
    destruct (@make_ext_env_run (with_load_extensions le C) any_flags ext params h I He Hps Hlib)
      as (s3' & h3' & rc1' & h4' & env4' & _ & Hsetup' & _ & _ & Hrun').
    change (@setup_ext_env (with_load_extensions le C) ext params h)
      with (setup_ext_env ext params h) in Hsetup'.
    rewrite Hsetup in Hsetup'. inversion Hsetup'; subst rc1' h4'.
    by rewrite Hrc in Hrun'.
  - intros ->. by rewrite Hrun.
Qed.

(** [make_ext_env] has set the flag when it returns. *)
Lemma make_ext_env_sets_flag ext params h rc h' :
  collaborators_keep (flag_set ext) ->
  make_ext_env ext params h = Done rc h' -> flag_set ext h'.
Proof.
  intros Hc. pose proof Hc as (Hps & _ & _ & Hle).
  unfold make_ext_env. unfold bind at 1. simpl.
  unfold bind at 1. unfold write_env at 1. simpl.
  destruct (ext_envs h !! ext) as [env|]; [|done].
  unfold bind at 1. unfold write_env at 1. simpl. rewrite lookup_insert_eq.
  match goal with |- ?K ?h2 = _ -> _ =>
    assert (HK : preserves (flag_set ext) K); [|assert (H2 : flag_set ext h2)]
  end.
  - pres.
    + apply preserves_lift, Hps.
    + apply preserves_set_globals.
    + by apply preserves_load_libraries.
    + apply preserves_call, Hle.
  - eexists. simpl. by rewrite lookup_insert_eq.
  - intros Hrun. specialize (HK _ H2). by rewrite Hrun in HK.
Qed.

(** C9.  From the host memory [make_ext_env] has left, through every
    sequence of operations of the core (creations, destructions,
    finalisations, calls of the handler with any stack, with any change of
    the runtimes in between), the rerun flag of the created environment is
    set in every host memory reached; this for collaborators that do not
    clear a flag that is set, which is the pipeline driver's transition. *)
Theorem rerun_flag_never_cleared ext params h0 rc h ops :
  collaborators_keep (flag_set ext) ->
  make_ext_env ext params h0 = Done rc h ->
  Forall (flag_set ext) (history ops h).
Proof.
  intros Hc Hmake. apply history_flag_set; [done|].
  by eapply make_ext_env_sets_flag.
Qed.

End CreationClaims.

(** The collaborators of the concrete instance keep these invariants. *)
Lemma preserves_env_inv_on_state {A} P ext s (f : lua_State -> option (A * lua_State)) :
  preserves (env_inv P ext) (on_state s f).
Proof.
  intros h Hh. unfold on_state. destruct (lua_states h !! s) as [L|] eqn:HL; [|done].
  destruct (f L) as [[a L']|]; [|done]. apply env_inv_upd_state; [by eexists|done].
Qed.

Lemma preserves_env_inv_read_env {A} P ext e (field : ExtensionEnv -> A) :
  preserves (env_inv P ext) (read_env e field).
Proof. intros h Hh. unfold read_env. by destruct (ext_envs h !! e). Qed.

Lemma host_after_preserves {A} I (c : M A) h : preserves I c -> I h -> I (host_after c h).
Proof.
  intros Hc Hh. unfold host_after. specialize (Hc h Hh). by destruct (c h).
Qed.

Lemma demo_provide_styler_env_inv a b P ext e h :
  env_inv P ext h -> env_inv P ext (@provide_styler (demo_with a b) e h).
Proof.
  apply host_after_preserves.
  repeat (apply preserves_bind; [|intros ?]);
    first [apply preserves_env_inv_read_env | apply preserves_env_inv_on_state].
Qed.

Lemma demo_collaborators_keep a b ext :
  @collaborators_keep (demo_with a b) (flag_set ext).
Proof.
  split_and!; try done; intros e h; apply host_after_preserves; pres.
Qed.

Lemma make_ext_env_initial_flags_witness :
  exists rc h' env',
    @make_ext_env demo 1%positive (demo_params 2) demo_host = Done rc h' /\
    ext_envs h' !! 1%positive = Some env' /\
    require_extra_run env' = true /\ iter_num env' = 0.
Proof.
  apply (@make_ext_env_initial_flags demo 1%positive (demo_params 2) demo_host).
  - vm_compute. by eexists.
  - intros h. apply demo_provide_styler_env_inv.
  - intros s h Hh. exact Hh.
  - intros s h Hh. exact Hh.
Defined.

Lemma make_ext_env_status_witness :
  exists s3 h3 rc1 h4 env4,
    @load_libraries (demo_with 3 7) s3 (demo_params 0) h3 = Done rc1 h4 /\
    ext_envs h4 !! 1%positive = Some env4 /\
    (rc1 ≠ 0 ->
       @make_ext_env (demo_with 3 7) 1%positive (demo_params 0) demo_host = Done rc1 h4 /\
       forall le,
         @make_ext_env (with_load_extensions le (demo_with 3 7)) 1%positive
           (demo_params 0) demo_host = Done rc1 h4) /\
    (rc1 = 0 ->
       @make_ext_env (demo_with 3 7) 1%positive (demo_params 0) demo_host =
         Done (@load_extensions (demo_with 3 7) (state env4) (demo_params 0) h4).1
              (@load_extensions (demo_with 3 7) (state env4) (demo_params 0) h4).2).
Proof.
  apply (@make_ext_env_status (demo_with 3 7) 1%positive (demo_params 0) demo_host).
  - vm_compute. by eexists.
  - intros h. apply demo_provide_styler_env_inv.
  - intros s h Hh. exact Hh.
Defined.

Lemma rerun_flag_never_cleared_witness :
  Forall (flag_set 1%positive)
    (@history demo
       [op_ext_require_rerun 1%positive;
        op_runtime 1%positive (mk_lua_State [LInteger 7] ∅ ∅ ∅);
        op_ext_require_rerun 1%positive;
        op_finalise_env_for_typesetting 1%positive;
        op_dest_ext_env 1%positive]
       demo_created).
Proof.
  apply (@rerun_flag_never_cleared demo 1%positive (demo_params 2) demo_host 0).
  - apply demo_collaborators_keep.
  - vm_compute. reflexivity.
Defined.

(** ** The node-type table *)

Lemma fill_node_types_other n names : forall i t,
  n ∉ names -> fill_node_types i names t !! n = t !! n.
Proof.
  induction names as [|m names IH]; intros i t Hn; simpl; [done|].
  apply not_elem_of_cons in Hn as [Hne Hn]. rewrite IH by done.
  by rewrite lookup_insert_ne.
Qed.

Lemma fill_node_types_lookup names : forall i t j n,
  NoDup names -> names !! j = Some n ->
  fill_node_types i names t !! n = Some (LInteger (lua_Integer_of_size_t (i + Z.of_nat j))).
Proof.
  induction names as [|m names IH]; intros i t j n Hnd Hj; [done|].
  apply NoDup_cons in Hnd as [Hm Hnd]. simpl. destruct j as [|j]; simpl in Hj.
  - inversion Hj; subst m. rewrite fill_node_types_other by done.
    rewrite lookup_insert_eq. do 3 f_equal. lia.
  - rewrite (IH _ _ j n) by done. do 3 f_equal. lia.
Qed.

Lemma fill_node_types_dom names : forall i t,
  dom (fill_node_types i names t) = list_to_set names ∪ dom t.
Proof.
  induction names as [|m names IH]; intros i t; simpl.
  - by rewrite (left_id_L ∅ (∪)).
  - rewrite IH, dom_insert_L.
    by rewrite (assoc_L (∪)), (comm_L (∪) (list_to_set names)).
Qed.

Lemma lua_Integer_of_size_t_small i : 0 <= i < 2 ^ 63 -> lua_Integer_of_size_t i = i.
Proof.
  intros Hi. unfold lua_Integer_of_size_t.
  destruct (Z.ltb_spec i (2 ^ 63)); [done|lia].
Qed.

Section NodeTypes.
Context `{Collaborators}.

(** C7.  After [set_globals] the global [node_types] is a table that maps
    every name of [node_tree_content_type_names] to its index in that list
    and has no other key, so as many entries as there are names; this for
    a list of distinct names that fits the loop counter, and guest-visible
    names of the arguments and name-registry handles other than
    [node_types]. *)
Theorem node_types_table e params h env L :
  ext_envs h !! e = Some env ->
  lua_states h !! state env = Some L ->
  NoDup node_tree_content_type_names ->
  Z.of_nat (length node_tree_content_type_names) <= 2 ^ 63 ->
  EM_ARGS_VAR_NAME ≠ EM_NODE_TYPES_TABLE ->
  EM_MT_NAMES_LIST_VAR_NAME ≠ EM_NODE_TYPES_TABLE ->
  exists h' L' r t,
    set_globals e params h = Done tt h' /\
    lua_states h' !! state env = Some L' /\
    globals L' !! EM_NODE_TYPES_TABLE = Some (LTable r) /\
    tables L' !! r = Some t /\
    (forall i n, node_tree_content_type_names !! i = Some n ->
       t !! n = Some (LInteger (Z.of_nat i))) /\
    (forall n v, t !! n = Some v ->
       exists i, node_tree_content_type_names !! i = Some n /\ v = LInteger (Z.of_nat i)) /\
    size t = length node_tree_content_type_names.
Proof.
  intros He HL Hnd Hlen Hargs Hmt.
  destruct (set_globals_spec e params h env L He HL)
    as (h' & p1 & p2 & p3 & r & Hrun & _ & Hstates & _).
  eexists h', _, r, (fill_node_types 0 node_tree_content_type_names ∅).
  split; [done|]. split; [by rewrite Hstates, lookup_insert_eq|]. simpl.
  assert (Hidx : forall i n, node_tree_content_type_names !! i = Some n ->
            fill_node_types 0 node_tree_content_type_names ∅ !! n
              = Some (LInteger (Z.of_nat i))).
  { intros i n Hi. rewrite (fill_node_types_lookup _ _ _ i n) by done.
    rewrite lua_Integer_of_size_t_small; [done|].
    apply lookup_lt_Some in Hi. lia. }
  split_and!.
  - rewrite !lookup_insert_ne by done. by rewrite lookup_insert_eq.
  - by rewrite lookup_insert_eq.
  - done.
  - intros n v Hv.
    assert (Hin : n ∈ node_tree_content_type_names).
    { assert (Hd : n ∈ dom (fill_node_types 0 node_tree_content_type_names ∅))
        by (apply elem_of_dom; by eexists).
      by rewrite fill_node_types_dom, dom_empty_L, (right_id_L ∅ (∪)),
        elem_of_list_to_set in Hd. }
    apply list_elem_of_lookup in Hin as [i Hi]. exists i. split; [done|].
    rewrite (Hidx i n Hi) in Hv. by inversion Hv.
  - rewrite <- size_dom, fill_node_types_dom, dom_empty_L, (right_id_L ∅ (∪)).
    by apply size_list_to_set.
Qed.

End NodeTypes.

Lemma node_types_table_witness :
  exists h' L' r t,
    @set_globals demo 1%positive (demo_params 2) demo_created = Done tt h' /\
    lua_states h' !! 1%positive = Some L' /\
    globals L' !! EM_NODE_TYPES_TABLE = Some (LTable r) /\
    tables L' !! r = Some t /\
    (forall i n, ["word"; "call"; "content"] !! i = Some n ->
       t !! n = Some (LInteger (Z.of_nat i))) /\
    (forall n v, t !! n = Some v ->
       exists i, ["word"; "call"; "content"] !! i = Some n /\ v = LInteger (Z.of_nat i)) /\
    size t = 3%nat.
Proof.
  refine (@node_types_table demo 1%positive (demo_params 2) demo_created
            (mk_ExtensionEnv 1 true 0 1 2 3 4) _ _ _ _ _ _ _).
  - reflexivity.
  - reflexivity.
  - apply (bool_decide_unpack _). vm_compute. exact I.
  - vm_compute. discriminate.
  - discriminate.
  - discriminate.
Defined.

(** ** The sandbox *)

Lemma tier_nonempty lvl lib :
  (lvl, lib) ∈ capability_tiers -> exists n f, (n, f) ∈ entries lib.
Proof.
  intros Hin. unfold capability_tiers in Hin.
  repeat (apply elem_of_cons in Hin as [Heq|Hin]; [inversion Heq; subst lvl lib; clear Heq|]);
    [| | |by apply elem_of_nil in Hin]; eexists _, _; simpl; apply elem_of_cons; by left.
Qed.

Section SandboxClaims.
Context `{Collaborators}.

(** C3, as the code has it.  For sandbox levels [L0 < L1] (and for
    [L0 = L1]), the standard libraries loaded at [L1] are among those
    loaded at [L0]: the capabilities shrink as the level grows.  This for a library loader
    that leaves the registrations of the standard libraries alone. *)
Theorem capabilities_shrink_with_level s h L p0 p1 :
  lua_states h !! s = Some L ->
  keeps_std_libs s (load_em_std_lib s) ->
  sandbox_lvl p0 <= sandbox_lvl p1 ->
  std_libs_after s p1 h ⊆ std_libs_after s p0 h.
Proof.
  intros HL Hk Hle n.
  rewrite !(std_libs_after_elem s _ h L n HL Hk), !tiers_loaded.
  intros [Hn [Hl|(lvl & lib & Hin & Hlvl & Hlib)]]; (split; [done|]); [by left|].
  right. exists lvl, lib. split_and!; [done|lia|done].
Qed.

(** C4.  [load_library_set] registers every entry of a table that ends with
    the null entry and leaves the stack as it found it: the library each
    [luaL_requiref] pushes is popped.  After [load_libraries] on a runtime
    that has loaded no standard library, each row of the tier table is
    loaded if and only if the sandbox level is at most the row's bound (2
    for the universal row, 1 for input/output, 0 for the operating
    system), and of a row that is not loaded no entry is.  This for a
    library loader that leaves the registrations of the standard libraries
    alone. *)
Theorem load_libraries_rows s params h L :
  lua_states h !! s = Some L ->
  pristine L ->
  keeps_std_libs s (load_em_std_lib s) ->
  (forall lib, terminated lib = true ->
     exists L1,
       load_library_set s lib h = Done tt (upd_state s L1 h) /\
       stack L1 = stack L /\
       forall n f, (n, f) ∈ entries lib -> registered n L1) /\
  exists rc h' L',
    load_libraries s params h = Done rc h' /\
    lua_states h' !! s = Some L' /\
    forall lvl lib, (lvl, lib) ∈ capability_tiers ->
      (row_loaded lib L' <-> sandbox_lvl params <= lvl) /\
      (~ sandbox_lvl params <= lvl -> row_absent lib L').
Proof.
  intros HL Hp Hk. split.
  - intros lib Ht. exists (register_entries (entries lib) L).
    rewrite (load_library_set_eq s lib h L HL), Ht. split; [done|].
    split; [apply register_entries_stack|].
    intros n f Hin. by eapply register_entries_registered.
  - destruct (load_libraries_final s params h L HL Hk) as (rc & h' & L' & Hrun & HL' & Hsame).
    exists rc, h', L'. split; [done|]. split; [done|].
    intros lvl lib Hin.
    assert (Hrow : forall n f, (n, f) ∈ entries lib ->
              (sandbox_lvl params <= lvl -> loaded L' !! n = Some (LLib f)) /\
              (~ sandbox_lvl params <= lvl -> loaded L' !! n = None)).
    { intros n f Hnf.
      assert (Hn : n ∈ std_lib_names).
      { eapply tier_names_std; [done|]. apply list_elem_of_fmap. by exists (n, f). }
      destruct (Hsame n Hn) as [-> _].
      destruct (tiers_row params L lvl lib n f Hp Hin Hnf) as [Hyes Hno].
      split; intros Hlvl; [by apply Hyes|by apply Hno]. }
    split; [split|].
    + intros Hall. destruct (decide (sandbox_lvl params <= lvl)) as [|Hgt]; [done|].
      destruct (tier_nonempty lvl lib Hin) as (n & f & Hnf).
      specialize (Hall n f Hnf). destruct (Hrow n f Hnf) as [_ Hno].
      rewrite (Hno Hgt) in Hall. done.
    + intros Hlvl n f Hnf. by apply (Hrow n f Hnf).
    + intros Hgt n f Hnf. by apply (Hrow n f Hnf).
Qed.

(** C5, as the code has it.  After [load_libraries] on a runtime that has
    bound no standard library, the universal libraries are global exactly
    at the sandbox levels up to 2, the input/output library exactly at the
    levels up to 1 and the operating-system library exactly at the levels
    up to 0.  So from level 2 on only universal libraries are exposed, at
    level 0 the operating-system library is in the global namespace and at
    level 2 it is not.  This for a library loader that leaves the
    registrations of the standard libraries alone and host functions that
    are not named like a standard library. *)
Theorem sandbox_levels s params h L :
  lua_states h !! s = Some L ->
  pristine L ->
  keeps_std_libs s (load_em_std_lib s) ->
  EM_IMPORT_STYLESHEET_FUNC_NAME ∉ std_lib_names ->
  EM_INCLUDE_FILE_FUNC_NAME ∉ std_lib_names ->
  exists rc h' L',
    load_libraries s params h = Done rc h' /\
    lua_states h' !! s = Some L' /\
    (forall n f, (n, f) ∈ entries lua_std_libs_universal ->
       globals L' !! n = if decide (sandbox_lvl params <= 2) then Some (LLib f) else None) /\
    (globals L' !! LUA_IOLIBNAME =
       if decide (sandbox_lvl params <= 1) then Some (LLib luaopen_io) else None) /\
    (globals L' !! LUA_OSLIBNAME =
       if decide (sandbox_lvl params <= 0) then Some (LLib luaopen_os) else None) /\
    (sandbox_lvl params = 0 -> globals L' !! LUA_OSLIBNAME = Some (LLib luaopen_os)) /\
    (sandbox_lvl params = 2 -> globals L' !! LUA_OSLIBNAME = None).
Proof.
  intros HL Hp Hk Himp Hinc.
  destruct (load_libraries_final s params h L HL Hk) as (rc & h' & L' & Hrun & HL' & Hsame).
  exists rc, h', L'. split; [done|]. split; [done|].
  assert (Hrow : forall lvl lib n f, (lvl, lib) ∈ capability_tiers -> (n, f) ∈ entries lib ->
            globals L' !! n = if decide (sandbox_lvl params <= lvl) then Some (LLib f) else None).
  { intros lvl lib n f Hin Hnf.
    assert (Hn : n ∈ std_lib_names).
    { eapply tier_names_std; [done|]. apply list_elem_of_fmap. by exists (n, f). }
    destruct (Hsame n Hn) as [_ ->]. rewrite std_functions_globals by done.
    destruct (tiers_row params L lvl lib n f Hp Hin Hnf) as [Hyes Hno].
    destruct (decide (sandbox_lvl params <= lvl)) as [Hlvl|Hlvl];
      [by apply Hyes|by apply Hno]. }
  assert (Hio : globals L' !! LUA_IOLIBNAME =
            if decide (sandbox_lvl params <= 1) then Some (LLib luaopen_io) else None).
  { apply (Hrow 1 lua_std_libs_restriction_lvl_1); [unfold capability_tiers; in_list|].
    simpl. in_list. }
  assert (Hos : globals L' !! LUA_OSLIBNAME =
            if decide (sandbox_lvl params <= 0) then Some (LLib luaopen_os) else None).
  { apply (Hrow 0 lua_std_libs_restriction_lvl_0); [unfold capability_tiers; in_list|].
    simpl. in_list. }
  split_and!; try done.
  - intros n f Hnf.
    apply (Hrow 2 lua_std_libs_universal); [unfold capability_tiers; in_list|done].
  - intros Hlvl. rewrite Hos, decide_True; [done|lia].
  - intros Hlvl. rewrite Hos, decide_False; [done|lia].
Qed.

End SandboxClaims.

Lemma demo_keeps_std_libs a b s : keeps_std_libs s (@load_em_std_lib (demo_with a b) s).
Proof. intros h L HL. by exists L. Qed.

Lemma demo_runtime_pristine : pristine empty_lua_State.
Proof. by intros n Hn. Qed.

Lemma capabilities_shrink_with_level_witness :
  @std_libs_after demo 1%positive (demo_params 2) demo_runtime
    ⊆ @std_libs_after demo 1%positive (demo_params 0) demo_runtime.
Proof.
  apply (@capabilities_shrink_with_level demo 1%positive demo_runtime empty_lua_State).
  - reflexivity.
  - apply demo_keeps_std_libs.
  - vm_compute. discriminate.
Defined.

(** C3 as the spec has it fails: the operating-system library is loaded at
    level 0 and not at level 2. *)
Lemma capabilities_do_not_grow_with_level :
  sandbox_lvl (demo_params 0) < sandbox_lvl (demo_params 2) /\
  ~ (@std_libs_after demo 1%positive (demo_params 0) demo_runtime
       ⊆ @std_libs_after demo 1%positive (demo_params 2) demo_runtime).
Proof.
  split; [done|]. intros Hsub.
  assert (Hin : LUA_OSLIBNAME ∈ @std_libs_after demo 1%positive (demo_params 0) demo_runtime)
    by (apply (bool_decide_unpack _); vm_compute; exact I).
  apply Hsub in Hin. revert Hin.
  apply (bool_decide_unpack _). vm_compute. exact I.
Qed.

Lemma load_libraries_rows_witness :
  exists rc h' L',
    @load_libraries demo 1%positive (demo_params 1) demo_runtime = Done rc h' /\
    lua_states h' !! 1%positive = Some L' /\
    forall lvl lib, (lvl, lib) ∈ capability_tiers ->
      (row_loaded lib L' <-> sandbox_lvl (demo_params 1) <= lvl) /\
      (~ sandbox_lvl (demo_params 1) <= lvl -> row_absent lib L').
Proof.
  refine (proj2 (@load_libraries_rows demo 1%positive (demo_params 1) demo_runtime
                   empty_lua_State _ _ _)).
  - reflexivity.
  - apply demo_runtime_pristine.
  - apply demo_keeps_std_libs.
Defined.

Lemma sandbox_levels_witness :
  exists rc h' L',
    @load_libraries demo 1%positive (demo_params 0) demo_runtime = Done rc h' /\
    lua_states h' !! 1%positive = Some L' /\
    globals L' !! LUA_OSLIBNAME = Some (LLib luaopen_os).
Proof.
  destruct (@sandbox_levels demo 1%positive (demo_params 0) demo_runtime empty_lua_State)
    as (rc & h' & L' & Hrun & HL' & _ & _ & _ & Hos & _).
  - reflexivity.
  - apply demo_runtime_pristine.
  - apply demo_keeps_std_libs.
  - apply (bool_decide_unpack _). vm_compute. exact I.
  - apply (bool_decide_unpack _). vm_compute. exact I.
  - exists rc, h', L'. split; [exact Hrun|]. split; [exact HL'|]. apply Hos. reflexivity.
Defined.

(** C5 as the spec has it fails: level 2 is a level [>= 1], and after
    [load_libraries] at level 2 the input/output library is neither loaded
    nor global; level 1 is a level [>= 0], and at level 1 the
    operating-system library is neither. *)
Lemma io_not_granted_at_level_2 :
  (1 <= sandbox_lvl (demo_params 2) /\
   exists rc h' L',
     @load_libraries demo 1%positive (demo_params 2) demo_runtime = Done rc h' /\
     lua_states h' !! 1%positive = Some L' /\
     globals L' !! LUA_IOLIBNAME = None /\ loaded L' !! LUA_IOLIBNAME = None) /\
  (0 <= sandbox_lvl (demo_params 1) /\
   exists rc h' L',
     @load_libraries demo 1%positive (demo_params 1) demo_runtime = Done rc h' /\
     lua_states h' !! 1%positive = Some L' /\
     globals L' !! LUA_OSLIBNAME = None /\ loaded L' !! LUA_OSLIBNAME = None).
Proof.
  split; (split; [done|]); eexists _, _, _; (split; [vm_compute; reflexivity|]);
    (split; [vm_compute; reflexivity|]); split; vm_compute; reflexivity.
Qed.


(** * Further properties of [ext-env.c] *)

(** ** [set_globals], in full *)

Lemma Host_eq (a b : Host) :
  lua_states a = lua_states b -> lua_pointers a = lua_pointers b ->
  ext_envs a = ext_envs b -> logs a = logs b -> warn_status a = warn_status b ->
  a = b.
Proof. destruct a, b; simpl; by intros -> -> -> -> ->. Qed.

Section SetGlobalsEffect.
Context `{Collaborators}.

(** The host memory [set_globals] leaves: the three handles are new and
    distinct, the table is new, and nothing else but the five globals and
    the three fields of the environment is written. *)
Lemma set_globals_effect e params h env L :
  ext_envs h !! e = Some env ->
  lua_states h !! state env = Some L ->
  exists p1 p2 p3 r,
    set_globals e params h =
      Done tt (mk_Host
        (<[state env :=
            mk_lua_State (stack L)
              (<[EM_MT_NAMES_LIST_VAR_NAME := LLightUserdata p3]>
                 (<[EM_ARGS_VAR_NAME := LLightUserdata p2]>
                    (<[EM_NODE_TYPES_TABLE := LTable r]>
                       (<[EM_ENV_VAR_NAME := LLightUserdata p1]>
                          (<[EM_ITER_NUM_VAR_NAME := LInteger 0]> (globals L))))))
              (loaded L)
              (<[r := fill_node_types 0 node_tree_content_type_names ∅]> (tables L))]>
           (lua_states h))
        (<[p3 := Some (mk_LuaPointer MT_NAMES_LIST (params_mt_names_list params))]>
           (<[p2 := Some (mk_LuaPointer PARSED_ARGS (params_args params))]>
              (<[p1 := Some (mk_LuaPointer EXT_ENV e)]> (lua_pointers h))))
        (<[e := mk_ExtensionEnv (state env) (require_extra_run env) (iter_num env)
                  (styler env) p1 p2 p3]> (ext_envs h))
        (logs h) (warn_status h)) /\
    lua_pointers h !! p1 = None /\ lua_pointers h !! p2 = None /\
    lua_pointers h !! p3 = None /\
    p1 ≠ p2 /\ p1 ≠ p3 /\ p2 ≠ p3 /\
    tables L !! r = None.
Proof.
  intros He HL.
  set (m := lua_pointers h).
  set (p1 := fresh (dom m)).
  set (m1 := <[p1 := Some (mk_LuaPointer EXT_ENV e)]> m).
  set (p2 := fresh (dom m1)).
  set (m2 := <[p2 := Some (mk_LuaPointer PARSED_ARGS (params_args params))]> m1).
  set (p3 := fresh (dom m2)).
  assert (H1 : m !! p1 = None) by apply not_elem_of_dom, is_fresh.
  assert (H2 : m1 !! p2 = None) by apply not_elem_of_dom, is_fresh.
  assert (H3 : m2 !! p3 = None) by apply not_elem_of_dom, is_fresh.
  assert (H12 : p1 ≠ p2).
  { intros Heq. rewrite <- Heq in H2. unfold m1 in H2. by rewrite lookup_insert_eq in H2. }
  assert (H23 : p2 ≠ p3).
  { intros Heq. rewrite <- Heq in H3. unfold m2 in H3. by rewrite lookup_insert_eq in H3. }
  assert (H13 : p1 ≠ p3).
  { intros Heq. rewrite <- Heq in H3. unfold m2, m1 in H3.
    rewrite lookup_insert_ne, lookup_insert_eq in H3; done. }
  exists p1, p2, p3, (fresh (dom (tables L))). split; [|split_and!; try assumption].
  - cut (wp (set_globals e params) (fun _ h' => h' = mk_Host
        (<[state env :=
            mk_lua_State (stack L)
              (<[EM_MT_NAMES_LIST_VAR_NAME := LLightUserdata p3]>
                 (<[EM_ARGS_VAR_NAME := LLightUserdata p2]>
                    (<[EM_NODE_TYPES_TABLE := LTable (fresh (dom (tables L)))]>
                       (<[EM_ENV_VAR_NAME := LLightUserdata p1]>
                          (<[EM_ITER_NUM_VAR_NAME := LInteger 0]> (globals L))))))
              (loaded L)
              (<[fresh (dom (tables L)) :=
                   fill_node_types 0 node_tree_content_type_names ∅]> (tables L))]>
           (lua_states h))
        (<[p3 := Some (mk_LuaPointer MT_NAMES_LIST (params_mt_names_list params))]> m2)
        (<[e := mk_ExtensionEnv (state env) (require_extra_run env) (iter_num env)
                  (styler env) p1 p2 p3]> (ext_envs h))
        (logs h) (warn_status h)) h).
    { by intros ([] & h' & -> & ->). }
    unfold set_globals.
    unfold lua_pushinteger, lua_setglobal, lua_pushlightuserdata, lua_newtable.
    repeat wp_step.
    eapply set_node_types_wp; [lookups | simpl; reflexivity | lookups | ].
    repeat wp_step.
    subst p3 m2 p2 m1 p1 m.
    apply Host_eq; simpl; rewrite ?insert_insert_eq; reflexivity.
  - unfold m1 in H2. by rewrite lookup_insert_ne in H2.
  - unfold m2, m1 in H3. by rewrite !lookup_insert_ne in H3.
  - apply not_elem_of_dom, is_fresh.
Qed.

End SetGlobalsEffect.

Section SetGlobalsProperties.
Context `{Collaborators}.

(** X1.  [set_globals] publishes the environment to its own runtime: when
    the three globals bound after the self-handle have other names, a call
    of the handler without arguments in that runtime returns and sets the
    flag of the very environment [set_globals] was called on. *)
Theorem set_globals_then_rerun e params h env L :
  ext_envs h !! e = Some env ->
  lua_states h !! state env = Some L ->
  stack L = [] ->
  EM_NODE_TYPES_TABLE ≠ EM_ENV_VAR_NAME ->
  EM_ARGS_VAR_NAME ≠ EM_ENV_VAR_NAME ->
  EM_MT_NAMES_LIST_VAR_NAME ≠ EM_ENV_VAR_NAME ->
  exists h1 env1,
    set_globals e params h = Done tt h1 /\
    ext_envs h1 !! e = Some env1 /\
    ext_require_rerun (state env) h1 =
      Done 0 (set_ext_envs (<[e := set_require_extra_run true env1]> (ext_envs h1)) h1).
Proof.
  intros He HL Hst Hn Ha Hm.
  destruct (set_globals_effect e params h env L He HL)
    as (p1 & p2 & p3 & r & Hrun & _ & _ & _ & H12 & H13 & H23 & _).
  eexists _, _. split; [exact Hrun|]. split; [simpl; apply lookup_insert_eq|].
  erewrite ext_require_rerun_eq by (simpl; apply lookup_insert_eq).
  simpl. rewrite Hst. unfold resolved, global_value. simpl.
  rewrite lookup_insert_eq. simpl.
  rewrite !lookup_insert_ne, lookup_insert_eq by done. simpl.
  rewrite !lookup_insert_ne, lookup_insert_eq by done.
  rewrite decide_True by done. simpl. by rewrite lookup_insert_eq.
Qed.

(** X2.  After [set_globals] the three fields [selfp], [args] and
    [mt_names_list] of the environment point to three distinct handles
    that did not exist before, tagged [EXT_ENV], [PARSED_ARGS] and
    [MT_NAMES_LIST] and pointing to the environment itself, to
    [params->args] and to [params->mt_names_list].  The last global bound,
    the one of the names list, holds its handle; each earlier global holds
    its value when no later one has its name. *)
Theorem set_globals_handles e params h env L :
  ext_envs h !! e = Some env ->
  lua_states h !! state env = Some L ->
  exists h1 env1 L1,
    set_globals e params h = Done tt h1 /\
    ext_envs h1 !! e = Some env1 /\
    lua_states h1 !! state env = Some L1 /\
    lua_pointers h1 !! selfp env1 = Some (Some (mk_LuaPointer EXT_ENV e)) /\
    lua_pointers h1 !! args env1 = Some (Some (mk_LuaPointer PARSED_ARGS (params_args params))) /\
    lua_pointers h1 !! mt_names_list env1 =
      Some (Some (mk_LuaPointer MT_NAMES_LIST (params_mt_names_list params))) /\
    NoDup [selfp env1; args env1; mt_names_list env1] /\
    lua_pointers h !! selfp env1 = None /\
    lua_pointers h !! args env1 = None /\
    lua_pointers h !! mt_names_list env1 = None /\
    globals L1 !! EM_MT_NAMES_LIST_VAR_NAME = Some (LLightUserdata (mt_names_list env1)) /\
    (EM_MT_NAMES_LIST_VAR_NAME ≠ EM_ARGS_VAR_NAME ->
       globals L1 !! EM_ARGS_VAR_NAME = Some (LLightUserdata (args env1))) /\
    (EM_MT_NAMES_LIST_VAR_NAME ≠ EM_ENV_VAR_NAME -> EM_ARGS_VAR_NAME ≠ EM_ENV_VAR_NAME ->
     EM_NODE_TYPES_TABLE ≠ EM_ENV_VAR_NAME ->
       globals L1 !! EM_ENV_VAR_NAME = Some (LLightUserdata (selfp env1))) /\
    (EM_MT_NAMES_LIST_VAR_NAME ≠ EM_ITER_NUM_VAR_NAME ->
     EM_ARGS_VAR_NAME ≠ EM_ITER_NUM_VAR_NAME ->
     EM_NODE_TYPES_TABLE ≠ EM_ITER_NUM_VAR_NAME ->
     EM_ENV_VAR_NAME ≠ EM_ITER_NUM_VAR_NAME ->
       globals L1 !! EM_ITER_NUM_VAR_NAME = Some (LInteger 0)).
Proof.
  intros He HL.
  destruct (set_globals_effect e params h env L He HL)
    as (p1 & p2 & p3 & r & Hrun & H1 & H2 & H3 & H12 & H13 & H23 & _).
  eexists _, _, _. split; [exact Hrun|].
  split; [simpl; apply lookup_insert_eq|]. split; [simpl; apply lookup_insert_eq|].
  simpl. split_and!; try assumption.
  - rewrite !lookup_insert_ne by done. apply lookup_insert_eq.
  - rewrite lookup_insert_ne by done. apply lookup_insert_eq.
  - apply lookup_insert_eq.
  - repeat constructor; rewrite ?elem_of_cons, ?elem_of_nil; intuition.
  - apply lookup_insert_eq.
  - intros. rewrite lookup_insert_ne by done. apply lookup_insert_eq.
  - intros. rewrite !lookup_insert_ne by done. apply lookup_insert_eq.
  - intros. rewrite !lookup_insert_ne by done. apply lookup_insert_eq.
Qed.

(** X3.  [set_globals] writes nothing but its five globals, its one new
    table, its three new handles and the three handle fields of the
    environment: the stack and [package.loaded] of the runtime, every
    other global and every table of it, the other runtimes, the other
    environments, the handles that existed, the log, and the runtime
    pointer, flag, counter and styler handle of the environment are as
    before. *)
Theorem set_globals_frame e params h env L :
  ext_envs h !! e = Some env ->
  lua_states h !! state env = Some L ->
  exists h1 env1 L1,
    set_globals e params h = Done tt h1 /\
    ext_envs h1 !! e = Some env1 /\
    lua_states h1 !! state env = Some L1 /\
    state env1 = state env /\ require_extra_run env1 = require_extra_run env /\
    iter_num env1 = iter_num env /\ styler env1 = styler env /\
    stack L1 = stack L /\ loaded L1 = loaded L /\
    (forall k, k ∉ [EM_ITER_NUM_VAR_NAME; EM_ENV_VAR_NAME; EM_NODE_TYPES_TABLE;
                    EM_ARGS_VAR_NAME; EM_MT_NAMES_LIST_VAR_NAME] ->
       globals L1 !! k = globals L !! k) /\
    (forall r t, tables L !! r = Some t -> tables L1 !! r = Some t) /\
    (forall s', s' ≠ state env -> lua_states h1 !! s' = lua_states h !! s') /\
    (forall e', e' ≠ e -> ext_envs h1 !! e' = ext_envs h !! e') /\
    (forall p o, lua_pointers h !! p = Some o -> lua_pointers h1 !! p = Some o) /\
    logs h1 = logs h /\ warn_status h1 = warn_status h.
Proof.
  intros He HL.
  destruct (set_globals_effect e params h env L He HL)
    as (p1 & p2 & p3 & r & Hrun & H1 & H2 & H3 & H12 & H13 & H23 & Hr).
  eexists _, _, _. split; [exact Hrun|].
  split; [simpl; apply lookup_insert_eq|]. split; [simpl; apply lookup_insert_eq|].
  simpl. split_and!; try reflexivity.
  - intros k Hk. rewrite !not_elem_of_cons in Hk.
    destruct Hk as (? & ? & ? & ? & ? & _). by rewrite !lookup_insert_ne.
  - intros r' t Ht. rewrite lookup_insert_ne; [done|]. intros <-. by rewrite Hr in Ht.
  - intros s' Hs. by rewrite lookup_insert_ne.
  - intros e' He'. by rewrite lookup_insert_ne.
  - intros p o Hp. rewrite !lookup_insert_ne; [done|intros <-; by rewrite ?H1, ?H2, ?H3 in Hp..].
Qed.

End SetGlobalsProperties.

Lemma set_globals_then_rerun_witness :
  exists h1 env1,
    @set_globals demo 1%positive (demo_params 2) demo_created = Done tt h1 /\
    ext_envs h1 !! 1%positive = Some env1 /\
    @ext_require_rerun demo 1%positive h1 =
      Done 0 (set_ext_envs (<[1%positive := set_require_extra_run true env1]> (ext_envs h1)) h1).
Proof.
  refine (@set_globals_then_rerun demo 1%positive (demo_params 2) demo_created
            demo_created_env demo_created_runtime _ _ _ _ _ _); try reflexivity; discriminate.
Defined.

Lemma set_globals_handles_witness :
  exists h1 env1,
    @set_globals demo 1%positive (demo_params 2) demo_created = Done tt h1 /\
    ext_envs h1 !! 1%positive = Some env1 /\
    lua_pointers h1 !! selfp env1 = Some (Some (mk_LuaPointer EXT_ENV 1)).
Proof.
  destruct (@set_globals_handles demo 1%positive (demo_params 2) demo_created
              demo_created_env demo_created_runtime eq_refl eq_refl)
    as (h1 & env1 & L1 & Hrun & He & _ & Hp & _).
  exists h1, env1. split; [exact Hrun|]. split; [exact He|exact Hp].
Defined.

Lemma set_globals_frame_witness :
  exists h1 L1,
    @set_globals demo 1%positive (demo_params 2) demo_created = Done tt h1 /\
    lua_states h1 !! 1%positive = Some L1 /\
    stack L1 = [] /\ logs h1 = logs demo_created.
Proof.
  destruct (@set_globals_frame demo 1%positive (demo_params 2) demo_created
              demo_created_env demo_created_runtime eq_refl eq_refl)
    as (h1 & env1 & L1 & Hrun & _ & HL1 & _ & _ & _ & _ & Hst & _ & _ & _ & _ & _ & _ & Hl & _).
  exists h1, L1. split; [exact Hrun|]. split; [exact HL1|]. split; [exact Hst|exact Hl].
Defined.

(** ** The node-type table when a name is repeated *)

Lemma fill_node_types_last names : forall i t j n,
  names !! j = Some n ->
  (forall k, (j < k)%nat -> names !! k ≠ Some n) ->
  fill_node_types i names t !! n = Some (LInteger (lua_Integer_of_size_t (i + Z.of_nat j))).
Proof.
  induction names as [|m names IH]; intros i t j n Hj Hlast; [done|].
  simpl. destruct j as [|j]; simpl in Hj.
  - inversion Hj; subst m. rewrite fill_node_types_other.
    + rewrite lookup_insert_eq. do 3 f_equal. lia.
    + intros Hin. apply list_elem_of_lookup in Hin as [k Hk].
      apply (Hlast (S k)); [lia|done].
  - rewrite (IH _ _ j n); [do 3 f_equal; lia|done|].
    intros k Hk. apply (Hlast (S k)). lia.
Qed.

Lemma list_to_set_remove_dups_size (l : list string) :
  size (list_to_set l : gset string) = length (remove_dups l).
Proof.
  rewrite <- (size_list_to_set (C := gset string) (remove_dups l)) by apply NoDup_remove_dups.
  f_equal. apply set_eq. intros x. by rewrite !elem_of_list_to_set, elem_of_remove_dups.
Qed.

Section NodeTypesRepeated.
Context `{Collaborators}.

(** X4.  Whatever the list of content-type names, repeated names included:
    after [set_globals] the table [node_types] maps each name to the index
    of its last occurrence in the list, its keys are the names, and it has
    as many entries as there are distinct names.  This for a list that fits
    the loop counter and handle globals not called [node_types]. *)
Theorem node_types_last_occurrence e params h env L :
  ext_envs h !! e = Some env ->
  lua_states h !! state env = Some L ->
  Z.of_nat (length node_tree_content_type_names) <= 2 ^ 63 ->
  EM_ARGS_VAR_NAME ≠ EM_NODE_TYPES_TABLE ->
  EM_MT_NAMES_LIST_VAR_NAME ≠ EM_NODE_TYPES_TABLE ->
  exists h' L' r t,
    set_globals e params h = Done tt h' /\
    lua_states h' !! state env = Some L' /\
    globals L' !! EM_NODE_TYPES_TABLE = Some (LTable r) /\
    tables L' !! r = Some t /\
    (forall j n, node_tree_content_type_names !! j = Some n ->
       (forall k, (j < k)%nat -> node_tree_content_type_names !! k ≠ Some n) ->
       t !! n = Some (LInteger (Z.of_nat j))) /\
    dom t = list_to_set node_tree_content_type_names /\
    size t = length (remove_dups node_tree_content_type_names).
Proof.
  intros He HL Hlen Hargs Hmt.
  destruct (set_globals_effect e params h env L He HL)
    as (p1 & p2 & p3 & r & Hrun & _).
  eexists _, _, r, (fill_node_types 0 node_tree_content_type_names ∅).
  split; [exact Hrun|]. split; [simpl; apply lookup_insert_eq|]. simpl.
  split_and!.
  - rewrite !lookup_insert_ne by done. apply lookup_insert_eq.
  - apply lookup_insert_eq.
  - intros j n Hj Hlast. rewrite (fill_node_types_last _ _ _ j n) by done.
    rewrite lua_Integer_of_size_t_small; [done|].
    apply lookup_lt_Some in Hj. lia.
  - by rewrite fill_node_types_dom, dom_empty_L, (right_id_L ∅ (∪)).
  - rewrite <- size_dom, fill_node_types_dom, dom_empty_L, (right_id_L ∅ (∪)).
    apply list_to_set_remove_dups_size.
Qed.

End NodeTypesRepeated.

Lemma node_types_last_occurrence_witness :
  exists h' L' r t,
    @set_globals (with_node_names ["word"; "call"; "word"] demo) 1%positive
      (demo_params 2) demo_created = Done tt h' /\
    lua_states h' !! 1%positive = Some L' /\
    tables L' !! r = Some t /\
    t !! "word" = Some (LInteger 2) /\ size t = 2%nat.
Proof.
  destruct (@node_types_last_occurrence (with_node_names ["word"; "call"; "word"] demo)
              1%positive (demo_params 2) demo_created demo_created_env demo_created_runtime)
    as (h' & L' & r & t & Hrun & HL' & _ & Ht & Hlast & _ & Hsize).
  - reflexivity.
  - reflexivity.
  - vm_compute. discriminate.
  - discriminate.
  - discriminate.
  - exists h', L', r, t. split; [exact Hrun|]. split; [exact HL'|]. split; [exact Ht|].
    split; [|exact Hsize].
    apply (Hlast 2%nat "word"); [reflexivity|].
    intros [|[|[|k]]] Hk; simpl; solve [lia | discriminate].
Defined.

(** ** More on the loading of libraries *)

Lemma register_entries_tables es : forall L, tables (register_entries es L) = tables L.
Proof. induction es as [|[n f] es IH]; intros L; simpl; [done|]. by rewrite IH. Qed.

Lemma tier_tables params lvl lib L : tables (tier params lvl lib L) = tables L.
Proof. unfold tier. destruct (_ <=? _); [apply register_entries_tables|done]. Qed.

Lemma register_lib_registered_id n f L : registered n L -> register_lib n f L = L.
Proof.
  intros (m & Hm & Hl & Hg). unfold register_lib, required. rewrite Hl. simpl. rewrite Hm.
  rewrite !insert_id by done. by destruct L.
Qed.

Lemma register_entries_id es : forall L,
  (forall n f, (n, f) ∈ es -> registered n L) -> register_entries es L = L.
Proof.
  induction es as [|[n f] es IH]; intros L Hall; simpl; [done|].
  rewrite register_lib_registered_id by (apply (Hall n f), elem_of_cons; by left).
  apply IH. intros n' f' Hin. apply (Hall n' f'), elem_of_cons. by right.
Qed.

Lemma register_entries_preloaded es n v : forall L,
  loaded L !! n = Some v -> lua_toboolean v = true ->
  loaded (register_entries es L) !! n = Some v /\
  (n ∈ es.*1 \/ globals L !! n = Some v -> globals (register_entries es L) !! n = Some v).
Proof.
  induction es as [|[n' f'] es IH]; intros L Hl Hv; simpl.
  - split; [done|]. intros [Hin|Hg]; [by apply elem_of_nil in Hin|done].
  - destruct (decide (n = n')) as [<-|Hne].
    + assert (Hreq : required n f' L = v) by (unfold required; by rewrite Hl; simpl; rewrite Hv).
      destruct (IH (register_lib n f' L)) as [Hl' Hg']; [simpl; by rewrite lookup_insert_eq, Hreq|done|].
      split; [done|]. intros _. apply Hg'. right. simpl. by rewrite lookup_insert_eq, Hreq.
    + destruct (IH (register_lib n' f' L)) as [Hl' Hg']; [simpl; by rewrite lookup_insert_ne|done|].
      split; [done|]. intros [Hin|Hg]; apply Hg'.
      * apply elem_of_cons in Hin as [?|Hin]; [done|by left].
      * right. simpl. by rewrite lookup_insert_ne.
Qed.

Section LoadingProperties.
Context `{Collaborators}.

(** X5.  [load_libraries] returns at every sandbox level, with exactly the
    status and the host memory of [load_em_std_lib], which it calls on the
    runtime with the stack as before; there the file-inclusion function is
    bound, and so is [requires_reiter] to the handler unless the
    file-inclusion function has that name.  Above level 2 no standard
    library is loaded: [package.loaded] is as before. *)
Theorem load_libraries_status s params h L :
  lua_states h !! s = Some L ->
  exists L3,
    load_libraries s params h =
      Done (load_em_std_lib s (upd_state s L3 h)).1 (load_em_std_lib s (upd_state s L3 h)).2 /\
    stack L3 = stack L /\ tables L3 = tables L /\
    globals L3 !! EM_INCLUDE_FILE_FUNC_NAME = Some (LCFunction ext_include_file) /\
    (EM_INCLUDE_FILE_FUNC_NAME ≠ EM_REQUIRE_RUNS_FUNC_NAME ->
       globals L3 !! EM_REQUIRE_RUNS_FUNC_NAME = Some (LCFunction ext_require_rerun_ptr)) /\
    (2 < sandbox_lvl params -> loaded L3 = loaded L /\
       forall k, k ∉ [EM_EVAL_NODE_FUNC_NAME; EM_IMPORT_STYLESHEET_FUNC_NAME;
                      EM_REQUIRE_RUNS_FUNC_NAME; EM_INCLUDE_FILE_FUNC_NAME] ->
         globals L3 !! k = globals L !! k).
Proof.
  intros HL. exists (std_functions (tiers params L)).
  split; [by rewrite (load_libraries_eq s params h L HL)|].
  split; [simpl; apply tiers_stack|].
  split; [simpl; unfold tiers; by rewrite !tier_tables|].
  split; [simpl; apply lookup_insert_eq|].
  split; [intros Hne; simpl; rewrite lookup_insert_ne by done; apply lookup_insert_eq|].
  intros Hlvl.
  assert (Hid : tiers params L = L).
  { unfold tiers, tier.
    by rewrite !(proj2 (Z.leb_gt _ _)) by lia. }
  rewrite Hid. split; [done|].
  intros k Hk. rewrite !not_elem_of_cons in Hk. destruct Hk as (? & ? & ? & ? & _).
  simpl. by rewrite !lookup_insert_ne.
Qed.

End LoadingProperties.

(** X6.  [load_library_set] stops at the first entry without a function,
    also when that entry has a name: what follows it in the table is never
    loaded, so the call does what it does on the table cut there. *)
Theorem load_library_set_stops s lib1 r lib2 h :
  Forall (fun r' => is_Some (func r')) lib1 ->
  func r = None ->
  load_library_set s (lib1 ++ r :: lib2) h
    = load_library_set s (lib1 ++ [mk_luaL_Reg None None]) h.
Proof.
  intros Hall Hr. revert h. induction Hall as [|r' lib1 [f Hf] Hall IH]; intros h; simpl.
  - by rewrite Hr.
  - rewrite Hf. destruct (name r') as [n|]; [|done].
    apply bind_ext. intros _ h1. apply bind_ext. intros _ h2. apply IH.
Qed.

(** X7.  Loading a table twice is loading it once: the second pass finds
    every library in [package.loaded] and changes nothing. *)
Theorem load_library_set_twice s lib h L :
  lua_states h !! s = Some L ->
  terminated lib = true ->
  (load_library_set s lib ;; load_library_set s lib) h = load_library_set s lib h.
Proof.
  intros HL Ht. unfold bind. rewrite (load_library_set_eq s lib h L HL), Ht.
  erewrite load_library_set_eq by apply lookup_upd_state. rewrite Ht, upd_state_twice.
  rewrite register_entries_id; [done|].
  intros n f Hin. by eapply register_entries_registered.
Qed.

(** X8.  A library that [package.loaded] already holds under the name of an
    entry is not opened again: after [load_library_set] both
    [package.loaded] and the global of that name hold the value that was
    there, not the library of the entry's opener. *)
Theorem load_library_set_keeps_loaded s lib h L n f v :
  lua_states h !! s = Some L ->
  terminated lib = true ->
  (n, f) ∈ entries lib ->
  loaded L !! n = Some v -> lua_toboolean v = true ->
  exists L1,
    load_library_set s lib h = Done tt (upd_state s L1 h) /\
    loaded L1 !! n = Some v /\ globals L1 !! n = Some v.
Proof.
  intros HL Ht Hin Hl Hv. exists (register_entries (entries lib) L).
  rewrite (load_library_set_eq s lib h L HL), Ht. split; [done|].
  destruct (register_entries_preloaded (entries lib) n v L Hl Hv) as [Hl' Hg'].
  split; [done|]. apply Hg'. left. apply list_elem_of_fmap. by exists (n, f).
Qed.

Lemma load_libraries_status_witness :
  exists L3,
    @load_libraries demo 1%positive (demo_params 3) demo_runtime =
      Done 0 (upd_state 1%positive L3 demo_runtime) /\
    loaded L3 = ∅ /\
    globals L3 !! EM_REQUIRE_RUNS_FUNC_NAME = Some (LCFunction ext_require_rerun_ptr).
Proof.
  destruct (@load_libraries_status demo 1%positive (demo_params 3) demo_runtime
              empty_lua_State eq_refl)
    as (L3 & Hrun & _ & _ & _ & Hreq & Hlvl).
  exists L3. split; [exact Hrun|].
  split; [apply Hlvl; reflexivity|apply Hreq; discriminate].
Defined.

Lemma load_library_set_stops_witness :
  load_library_set 1%positive
    ([mk_luaL_Reg (Some LUA_IOLIBNAME) (Some luaopen_io)]
       ++ mk_luaL_Reg (Some "late") None
       :: [mk_luaL_Reg (Some LUA_OSLIBNAME) (Some luaopen_os); mk_luaL_Reg None None])
    demo_runtime
  = load_library_set 1%positive lua_std_libs_restriction_lvl_1 demo_runtime.
Proof.
  apply (load_library_set_stops 1%positive
           [mk_luaL_Reg (Some LUA_IOLIBNAME) (Some luaopen_io)]).
  - repeat constructor. by eexists.
  - reflexivity.
Defined.

Lemma load_library_set_twice_witness :
  (load_library_set 1%positive lua_std_libs_universal ;;
   load_library_set 1%positive lua_std_libs_universal) demo_runtime
  = load_library_set 1%positive lua_std_libs_universal demo_runtime.
Proof.
  apply (load_library_set_twice 1%positive lua_std_libs_universal demo_runtime
           empty_lua_State); reflexivity.
Defined.

Lemma load_library_set_keeps_loaded_witness :
  exists L1,
    load_library_set 1%positive lua_std_libs_restriction_lvl_0
      (upd_state 1%positive (mk_lua_State [] ∅ {[ LUA_OSLIBNAME := LInteger 7 ]} ∅) demo_runtime)
    = Done tt (upd_state 1%positive L1
        (upd_state 1%positive (mk_lua_State [] ∅ {[ LUA_OSLIBNAME := LInteger 7 ]} ∅)
           demo_runtime)) /\
    loaded L1 !! LUA_OSLIBNAME = Some (LInteger 7) /\
    globals L1 !! LUA_OSLIBNAME = Some (LInteger 7).
Proof.
  apply (load_library_set_keeps_loaded 1%positive lua_std_libs_restriction_lvl_0 _
           (mk_lua_State [] ∅ {[ LUA_OSLIBNAME := LInteger 7 ]} ∅) LUA_OSLIBNAME luaopen_os).
  - reflexivity.
  - reflexivity.
  - simpl. apply elem_of_cons. by left.
  - reflexivity.
  - reflexivity.
Defined.

(** ** Destruction *)

Lemma wp_lua_close s Q h L :
  lua_states h !! s = Some L ->
  Q tt (set_lua_states (delete s (lua_states h)) h) -> wp (lua_close s) Q h.
Proof. intros HL HQ. eexists _, _. unfold lua_close. by rewrite HL. Qed.

Lemma wp_dest_lua_pointer p Q h o :
  lua_pointers h !! p = Some o -> Q tt h -> wp (dest_lua_pointer p) Q h.
Proof. intros Hp HQ. eexists _, _. unfold dest_lua_pointer. by rewrite Hp. Qed.

Lemma wp_free p Q h o :
  lua_pointers h !! p = Some o ->
  Q tt (set_lua_pointers (delete p (lua_pointers h)) h) -> wp (free p) Q h.
Proof. intros Hp HQ. eexists _, _. unfold free. by rewrite Hp. Qed.

(** The environment at [ext] is ready to be destroyed: its runtime is live
    and its four handle fields hold four different live handles. *)
Lemma dest_ext_env_eq ext h env :
  destroyable ext env h ->
  dest_ext_env ext h =
    Done tt (mk_Host
      (delete (state env) (lua_states h))
      (delete (styler env) (delete (selfp env) (delete (args env)
         (delete (mt_names_list env) (lua_pointers h)))))
      (ext_envs h) (logs h) (warn_status h)).
Proof.
  intros (He & [L HL] & [o1 H1] & [o2 H2] & [o3 H3] & [o4 H4] & Hnd).
  apply NoDup_cons in Hnd as [Hn1 Hnd]. apply NoDup_cons in Hnd as [Hn2 Hnd].
  apply NoDup_cons in Hnd as [Hn3 _].
  apply not_elem_of_cons in Hn1 as [? Hn1]. apply not_elem_of_cons in Hn1 as [? Hn1].
  apply not_elem_of_cons in Hn1 as [? _].
  apply not_elem_of_cons in Hn2 as [? Hn2]. apply not_elem_of_cons in Hn2 as [? _].
  apply not_elem_of_cons in Hn3 as [? _].
  cut (wp (dest_ext_env ext) (fun _ h' => h' = mk_Host
      (delete (state env) (lua_states h))
      (delete (styler env) (delete (selfp env) (delete (args env)
         (delete (mt_names_list env) (lua_pointers h)))))
      (ext_envs h) (logs h) (warn_status h)) h).
  { by intros ([] & h' & -> & ->). }
  unfold dest_ext_env.
  wp_step. wp_step. wp_step. eapply wp_lua_close; [exact HL|].
  wp_step. wp_step. wp_step. eapply wp_dest_lua_pointer; [exact H1|].
  wp_step. wp_step. wp_step. eapply wp_free; [exact H1|].
  wp_step. wp_step. wp_step.
  eapply wp_dest_lua_pointer; [simpl; rewrite lookup_delete_ne by done; exact H2|].
  wp_step. wp_step. wp_step.
  eapply wp_free; [simpl; rewrite lookup_delete_ne by done; exact H2|].
  wp_step. wp_step. wp_step.
  eapply wp_dest_lua_pointer; [simpl; rewrite !lookup_delete_ne by done; exact H3|].
  wp_step. wp_step. wp_step.
  eapply wp_free; [simpl; rewrite !lookup_delete_ne by done; exact H3|].
  wp_step. wp_step. wp_step.
  eapply wp_dest_lua_pointer; [simpl; rewrite !lookup_delete_ne by done; exact H4|].
  wp_step. wp_step.
  eapply wp_free; [simpl; rewrite !lookup_delete_ne by done; exact H4|].
  by apply Host_eq.
Qed.

(** X9.  On an environment whose runtime is live and whose four handle
    fields hold four different live handles, [dest_ext_env] returns; it has
    closed that runtime and freed those four handles, and nothing else:
    the other runtimes and handles, the log and every environment are as
    before.  In particular the fields of the destroyed environment still
    hold the closed runtime and the freed handles. *)
Theorem dest_ext_env_releases ext h env :
  destroyable ext env h ->
  exists h',
    dest_ext_env ext h = Done tt h' /\
    lua_states h' !! state env = None /\
    Forall (fun p => lua_pointers h' !! p = None)
      [mt_names_list env; args env; selfp env; styler env] /\
    (forall s', s' ≠ state env -> lua_states h' !! s' = lua_states h !! s') /\
    (forall p, p ∉ [mt_names_list env; args env; selfp env; styler env] ->
       lua_pointers h' !! p = lua_pointers h !! p) /\
    ext_envs h' = ext_envs h /\ logs h' = logs h.
Proof.
  intros Hd. eexists. split; [by apply dest_ext_env_eq|]. simpl.
  assert (Hgone : forall p, p ∈ [mt_names_list env; args env; selfp env; styler env] ->
            delete (styler env) (delete (selfp env) (delete (args env)
              (delete (mt_names_list env) (lua_pointers h)))) !! p = None).
  { intros p Hp. rewrite !elem_of_cons, elem_of_nil in Hp.
    destruct Hp as [->|[->|[->|[->|[]]]]]; rewrite !lookup_delete; repeat case_decide; done. }
  split_and!; try done.
  - apply lookup_delete_eq.
  - repeat constructor; apply Hgone; rewrite !elem_of_cons; auto 10.
  - intros s' Hs. by rewrite lookup_delete_ne.
  - intros p Hp. rewrite !not_elem_of_cons in Hp. destruct Hp as (? & ? & ? & ? & _).
    by rewrite !lookup_delete_ne.
Qed.

Section AfterDestruction.
Context `{Collaborators}.

(** X10.  [dest_ext_env] does not reset the fields of the environment, so
    after it has returned a second call closes a runtime that is no longer
    live, which has no defined behaviour, and so has a call of the handler
    in the closed runtime. *)
Theorem dest_ext_env_twice ext h env :
  destroyable ext env h ->
  exists h',
    dest_ext_env ext h = Done tt h' /\
    dest_ext_env ext h' = Undefined /\
    ext_require_rerun (state env) h' = Undefined.
Proof.
  intros Hd. pose proof Hd as (He & _). eexists. split; [by apply dest_ext_env_eq|].
  split.
  - unfold dest_ext_env, bind, read_env, lua_close. simpl. rewrite He. simpl.
    by rewrite lookup_delete_eq.
  - apply ext_require_rerun_dangling. simpl. apply lookup_delete_eq.
Qed.

End AfterDestruction.

Lemma destroyable_demo_created : destroyable 1%positive demo_created_env demo_created.
Proof.
  unfold destroyable. split_and!.
  - reflexivity.
  - by eexists.
  - by eexists.
  - by eexists.
  - by eexists.
  - by eexists.
  - apply (bool_decide_unpack _). by vm_compute.
Qed.

Lemma dest_ext_env_releases_witness :
  exists h',
    dest_ext_env 1%positive demo_created = Done tt h' /\
    lua_states h' !! 1%positive = None /\
    ext_envs h' = ext_envs demo_created.
Proof.
  destruct (dest_ext_env_releases 1%positive demo_created demo_created_env
              destroyable_demo_created)
    as (h' & Hrun & Hs & _ & _ & _ & He & _).
  exists h'. split; [exact Hrun|]. split; [exact Hs|exact He].
Defined.

Lemma dest_ext_env_twice_witness :
  exists h',
    dest_ext_env 1%positive demo_created = Done tt h' /\
    dest_ext_env 1%positive h' = Undefined /\
    @ext_require_rerun demo 1%positive h' = Undefined.
Proof.
  exact (@dest_ext_env_twice demo 1%positive demo_created demo_created_env
           destroyable_demo_created).
Defined.

(** ** Creation, then destruction *)

Section CreationEffect.
Context `{Collaborators}.

(** What [make_ext_env] leaves when its collaborators write into runtimes
    only: one new runtime, four new handles, and the environment filled
    with them. *)
Lemma make_ext_env_effect ext params h :
  is_Some (ext_envs h !! ext) ->
  runtime_only (provide_styler ext) ->
  (forall s, runtime_only (fun h' => (load_em_std_lib s h').2)) ->
  (forall s, runtime_only (fun h' => (load_extensions s params h').2)) ->
  exists rc h1 s p0 p1 p2 p3,
    make_ext_env ext params h = Done rc h1 /\
    lua_states h !! s = None /\
    dom (lua_states h1) = {[s]} ∪ dom (lua_states h) /\
    ext_envs h1 = <[ext := mk_ExtensionEnv s true 0 p0 p1 p2 p3]> (ext_envs h) /\
    lua_pointers h1 =
      <[p3 := Some (mk_LuaPointer MT_NAMES_LIST (params_mt_names_list params))]>
        (<[p2 := Some (mk_LuaPointer PARSED_ARGS (params_args params))]>
           (<[p1 := Some (mk_LuaPointer EXT_ENV ext)]>
              (<[p0 := Some (mk_LuaPointer STYLER (params_styler params))]>
                 (lua_pointers h)))) /\
    Forall (fun p => lua_pointers h !! p = None) [p0; p1; p2; p3] /\
    NoDup [p3; p2; p1; p0].
Proof.
  intros [env0 He0] Hps Hlib Hle.
  set (s := fresh (dom (lua_states h))).
  set (p0 := fresh (dom (lua_pointers h))).
  assert (Hs : lua_states h !! s = None) by apply not_elem_of_dom, is_fresh.
  assert (Hp0 : lua_pointers h !! p0 = None) by apply not_elem_of_dom, is_fresh.
  cut (wp (make_ext_env ext params) (fun _ h1 =>
    exists p1 p2 p3,
      dom (lua_states h1) = {[s]} ∪ dom (lua_states h) /\
      ext_envs h1 = <[ext := mk_ExtensionEnv s true 0 p0 p1 p2 p3]> (ext_envs h) /\
      lua_pointers h1 =
        <[p3 := Some (mk_LuaPointer MT_NAMES_LIST (params_mt_names_list params))]>
          (<[p2 := Some (mk_LuaPointer PARSED_ARGS (params_args params))]>
             (<[p1 := Some (mk_LuaPointer EXT_ENV ext)]>
                (<[p0 := Some (mk_LuaPointer STYLER (params_styler params))]>
                   (lua_pointers h)))) /\
      Forall (fun p => lua_pointers h !! p = None) [p0; p1; p2; p3] /\
      NoDup [p3; p2; p1; p0]) h).
  { intros (rc & h1 & Hrun & p1 & p2 & p3 & Hpost). by exists rc, h1, s, p0, p1, p2, p3. }
  unfold make_ext_env. repeat wp_step.
  match goal with |- wp _ _ (provide_styler ext ?X) =>
    destruct (Hps X) as (Henv2 & Hptr2 & Hdom2); simpl in Henv2, Hptr2, Hdom2;
    set (h2 := provide_styler ext X) in *; clearbody h2
  end.
  fold s p0 in Henv2, Hptr2, Hdom2. rewrite !insert_insert_eq in Henv2. rewrite insert_insert_eq in Hptr2.
  cbn [set_styler set_iter_num set_require_extra_run set_state state require_extra_run
       iter_num styler selfp args mt_names_list] in Henv2.
  rewrite dom_insert_L in Hdom2.
  assert (He2 : ext_envs h2 !! ext = Some (mk_ExtensionEnv s true 0 p0
            (selfp env0) (args env0) (mt_names_list env0)))
    by (rewrite Henv2; apply lookup_insert_eq).
  assert (HL2 : is_Some (lua_states h2 !! s)).
  { apply elem_of_dom. rewrite Hdom2. apply elem_of_union_l, elem_of_singleton. done. }
  destruct HL2 as [L2 HL2].
  destruct (set_globals_effect ext params h2 _ L2 He2 HL2)
    as (p1 & p2 & p3 & r & Hsg & H1 & H2 & H3 & H12 & H13 & H23 & _).
  simpl in Hsg.
  eexists tt, _. split; [exact Hsg|]. wp_step.
  eapply wp_read_env; [simpl; apply lookup_insert_eq|]. simpl.
  wp_step. unfold wp at 1. erewrite load_libraries_eq by (simpl; apply lookup_insert_eq).
  unfold call at 1. eexists _, _. split; [reflexivity|].
  match goal with |- context [load_em_std_lib s ?X] =>
    destruct (Hlib s X) as (Henv4 & Hptr4 & Hdom4); simpl in Henv4, Hptr4, Hdom4;
    set (res := load_em_std_lib s X) in *; clearbody res
  end.
  rewrite insert_insert_eq, !dom_insert_L in Hdom4.
  rewrite Hptr2 in H1, H2, H3, Hptr4. rewrite Henv2, insert_insert_eq in Henv4.
  rewrite Hdom2, !(assoc_L (∪)), !(idemp_L (∪) _) in Hdom4.
  assert (Hpost : exists p1 p2 p3 : addr,
      dom (lua_states res.2) = {[s]} ∪ dom (lua_states h) /\
      ext_envs res.2 = <[ext := mk_ExtensionEnv s true 0 p0 p1 p2 p3]> (ext_envs h) /\
      lua_pointers res.2 =
        <[p3 := Some (mk_LuaPointer MT_NAMES_LIST (params_mt_names_list params))]>
          (<[p2 := Some (mk_LuaPointer PARSED_ARGS (params_args params))]>
             (<[p1 := Some (mk_LuaPointer EXT_ENV ext)]>
                (<[p0 := Some (mk_LuaPointer STYLER (params_styler params))]>
                   (lua_pointers h)))) /\
      Forall (fun p => lua_pointers h !! p = None) [p0; p1; p2; p3] /\
      NoDup [p3; p2; p1; p0]).
  { exists p1, p2, p3. split; [exact Hdom4|]. split; [exact Henv4|]. split; [exact Hptr4|].
    assert (p1 ≠ p0) by (intros ->; by rewrite lookup_insert_eq in H1).
    assert (p2 ≠ p0) by (intros ->; by rewrite lookup_insert_eq in H2).
    assert (p3 ≠ p0) by (intros ->; by rewrite lookup_insert_eq in H3).
    rewrite lookup_insert_ne in H1, H2, H3 by done.
    split; [by repeat constructor|].
    repeat constructor; rewrite ?elem_of_cons, ?elem_of_nil; intuition. }
  destruct (negb (res.1 =? 0)); [by apply wp_ret|].
  destruct Hpost as (q1 & q2 & q3 & Hd & Hen & Hpt & Hfr & Hnd).
  eapply wp_bind, wp_read_env; [rewrite Hen; apply lookup_insert_eq|]. simpl.
  apply wp_call.
  destruct (Hle s res.2) as (Henv5 & Hptr5 & Hdom5). simpl in Henv5, Hptr5, Hdom5.
  exists q1, q2, q3. rewrite Hdom5, Henv5, Hptr5. by split_and!.
Qed.

(** X11.  With collaborators that write into runtimes only, after
    [make_ext_env] the environment has its flag set and its counter at
    [0], its runtime is one that did not exist before, and its four handle
    fields hold four different new handles tagged [STYLER], [EXT_ENV],
    [PARSED_ARGS] and [MT_NAMES_LIST], which point to [params->styler], to
    the environment itself, to [params->args] and to
    [params->mt_names_list]; the other environments and the handles that
    existed are as before. *)
Theorem make_ext_env_handles ext params h :
  is_Some (ext_envs h !! ext) ->
  runtime_only (provide_styler ext) ->
  (forall s, runtime_only (fun h' => (load_em_std_lib s h').2)) ->
  (forall s, runtime_only (fun h' => (load_extensions s params h').2)) ->
  exists rc h1 env1,
    make_ext_env ext params h = Done rc h1 /\
    ext_envs h1 !! ext = Some env1 /\
    require_extra_run env1 = true /\ iter_num env1 = 0 /\
    lua_states h !! state env1 = None /\ is_Some (lua_states h1 !! state env1) /\
    lua_pointers h1 !! styler env1 = Some (Some (mk_LuaPointer STYLER (params_styler params))) /\
    lua_pointers h1 !! selfp env1 = Some (Some (mk_LuaPointer EXT_ENV ext)) /\
    lua_pointers h1 !! args env1 = Some (Some (mk_LuaPointer PARSED_ARGS (params_args params))) /\
    lua_pointers h1 !! mt_names_list env1 =
      Some (Some (mk_LuaPointer MT_NAMES_LIST (params_mt_names_list params))) /\
    NoDup [mt_names_list env1; args env1; selfp env1; styler env1] /\
    Forall (fun p => lua_pointers h !! p = None)
      [styler env1; selfp env1; args env1; mt_names_list env1] /\
    (forall e', e' ≠ ext -> ext_envs h1 !! e' = ext_envs h !! e') /\
    (forall p o, lua_pointers h !! p = Some o -> lua_pointers h1 !! p = Some o).
Proof.
  intros He Hps Hlib Hle.
  destruct (make_ext_env_effect ext params h He Hps Hlib Hle)
    as (rc & h1 & s & p0 & p1 & p2 & p3 & Hrun & Hs & Hdom & Henv & Hptr & Hfr & Hnd).
  exists rc, h1, (mk_ExtensionEnv s true 0 p0 p1 p2 p3).
  split; [exact Hrun|]. split; [rewrite Henv; apply lookup_insert_eq|]. simpl.
  pose proof Hnd as Hnd'.
  apply NoDup_cons in Hnd' as [Hn3 Hnd']. apply NoDup_cons in Hnd' as [Hn2 Hnd'].
  apply NoDup_cons in Hnd' as [Hn1 _].
  apply not_elem_of_cons in Hn3 as [? Hn3]. apply not_elem_of_cons in Hn3 as [? Hn3].
  apply not_elem_of_cons in Hn3 as [? _].
  apply not_elem_of_cons in Hn2 as [? Hn2]. apply not_elem_of_cons in Hn2 as [? _].
  apply not_elem_of_cons in Hn1 as [? _].
  split_and!; try done.
  - apply elem_of_dom. rewrite Hdom. by apply elem_of_union_l, elem_of_singleton.
  - rewrite Hptr, !lookup_insert_ne by done. apply lookup_insert_eq.
  - rewrite Hptr, !lookup_insert_ne by done. apply lookup_insert_eq.
  - rewrite Hptr, lookup_insert_ne by done. apply lookup_insert_eq.
  - rewrite Hptr. apply lookup_insert_eq.
  - intros e' Hne. by rewrite Henv, lookup_insert_ne.
  - intros p o Hp. rewrite Hptr.
    rewrite !Forall_cons in Hfr. destruct Hfr as (F0 & F1 & F2 & F3 & _).
    rewrite !lookup_insert_ne; [done|intros <-; by rewrite ?F0, ?F1, ?F2, ?F3 in Hp..].
Qed.

(** X12.  With collaborators that write into runtimes only,
    [dest_ext_env] undoes [make_ext_env]: both return, and afterwards
    the handles are exactly those that existed before the creation and
    the live runtimes are the same as before; only the fields of the
    environment keep the values of the creation. *)
Theorem make_then_dest_ext_env ext params h :
  is_Some (ext_envs h !! ext) ->
  runtime_only (provide_styler ext) ->
  (forall s, runtime_only (fun h' => (load_em_std_lib s h').2)) ->
  (forall s, runtime_only (fun h' => (load_extensions s params h').2)) ->
  exists rc h1 h2,
    make_ext_env ext params h = Done rc h1 /\
    dest_ext_env ext h1 = Done tt h2 /\
    lua_pointers h2 = lua_pointers h /\
    dom (lua_states h2) = dom (lua_states h) /\
    ext_envs h2 = ext_envs h1.
Proof.
  intros He Hps Hlib Hle.
  destruct (make_ext_env_effect ext params h He Hps Hlib Hle)
    as (rc & h1 & s & p0 & p1 & p2 & p3 & Hrun & Hs & Hdom & Henv & Hptr & Hfr & Hnd).
  rewrite !Forall_cons in Hfr. destruct Hfr as (F0 & F1 & F2 & F3 & _).
  pose proof Hnd as Hnd'.
  apply NoDup_cons in Hnd' as [Hn3 Hnd']. apply NoDup_cons in Hnd' as [Hn2 Hnd'].
  apply NoDup_cons in Hnd' as [Hn1 _].
  apply not_elem_of_cons in Hn3 as [? Hn3]. apply not_elem_of_cons in Hn3 as [? Hn3].
  apply not_elem_of_cons in Hn3 as [? _].
  apply not_elem_of_cons in Hn2 as [? Hn2]. apply not_elem_of_cons in Hn2 as [? _].
  apply not_elem_of_cons in Hn1 as [? _].
  assert (Hd : destroyable ext (mk_ExtensionEnv s true 0 p0 p1 p2 p3) h1).
  { unfold destroyable. simpl. rewrite Henv, Hptr. split_and!.
    - apply lookup_insert_eq.
    - apply elem_of_dom. rewrite Hdom. by apply elem_of_union_l, elem_of_singleton.
    - rewrite lookup_insert_eq. by eexists.
    - rewrite lookup_insert_ne, lookup_insert_eq by done. by eexists.
    - rewrite !lookup_insert_ne, lookup_insert_eq by done. by eexists.
    - rewrite !lookup_insert_ne, lookup_insert_eq by done. by eexists.
    - done. }
  eexists rc, h1, _. split; [exact Hrun|]. split; [by apply dest_ext_env_eq|]. simpl.
  split_and!; [| |done].
  - rewrite Hptr.
    rewrite delete_insert_eq, (delete_insert_ne _ p3 p2), (delete_insert_ne _ p3 p1),
      (delete_insert_ne _ p3 p0) by done.
    rewrite delete_insert_eq, (delete_insert_ne _ p2 p1), (delete_insert_ne _ p2 p0) by done.
    rewrite delete_insert_eq, (delete_insert_ne _ p1 p0) by done.
    rewrite delete_insert_eq.
    apply map_eq. intros p. rewrite !lookup_delete. repeat case_decide; by subst.
  - rewrite dom_delete_L, Hdom. apply set_eq. intros x.
    rewrite elem_of_difference, elem_of_union, elem_of_singleton, elem_of_dom.
    split; [intros [[->|Hx] Hne]; done|].
    intros Hx. split; [by right|]. intros ->. rewrite Hs in Hx. by destruct Hx.
Qed.

End CreationEffect.

(** The collaborators of the concrete instance write into runtimes only. *)
Lemma preserves_same_shape_on_state {A} h0 s (f : lua_State -> option (A * lua_State)) :
  preserves (same_shape h0) (on_state s f).
Proof.
  intros h (He & Hp & Hd). unfold on_state.
  destruct (lua_states h !! s) as [L|] eqn:HL; [|done].
  destruct (f L) as [[a L']|]; [|done]. split_and!; [done..|]. simpl.
  rewrite dom_insert_L, <- Hd. apply set_eq. intros x.
  rewrite elem_of_union, elem_of_singleton. split; [|by right].
  intros [->|?]; [|done]. apply elem_of_dom. by eexists.
Qed.

Lemma preserves_same_shape_read_env {A} h0 e (field : ExtensionEnv -> A) :
  preserves (same_shape h0) (read_env e field).
Proof. intros h Hh. unfold read_env. by destruct (ext_envs h !! e). Qed.

Lemma demo_provide_styler_runtime_only a b e :
  runtime_only (@provide_styler (demo_with a b) e).
Proof.
  intros h. apply (host_after_preserves (same_shape h)); [|done].
  repeat (apply preserves_bind; [|intros ?]);
    first [apply preserves_same_shape_read_env | apply preserves_same_shape_on_state].
Qed.

Lemma demo_loaders_runtime_only a b :
  (forall s, runtime_only (fun h' => (@load_em_std_lib (demo_with a b) s h').2)) /\
  (forall s params, runtime_only (fun h' => (@load_extensions (demo_with a b) s params h').2)).
Proof. by split. Qed.

Lemma make_ext_env_handles_witness :
  exists rc h1 env1,
    @make_ext_env demo 1%positive (demo_params 1) demo_host = Done rc h1 /\
    ext_envs h1 !! 1%positive = Some env1 /\
    lua_pointers h1 !! selfp env1 = Some (Some (mk_LuaPointer EXT_ENV 1)).
Proof.
  destruct (@make_ext_env_handles demo 1%positive (demo_params 1) demo_host)
    as (rc & h1 & env1 & Hrun & He & _ & _ & _ & _ & _ & Hp & _).
  - by eexists.
  - apply demo_provide_styler_runtime_only.
  - apply demo_loaders_runtime_only.
  - intros s. apply demo_loaders_runtime_only.
  - exists rc, h1, env1. split; [exact Hrun|]. split; [exact He|exact Hp].
Defined.

Lemma make_then_dest_ext_env_witness :
  exists rc h1 h2,
    @make_ext_env demo 1%positive (demo_params 1) demo_host = Done rc h1 /\
    dest_ext_env 1%positive h1 = Done tt h2 /\
    lua_pointers h2 = lua_pointers demo_host /\
    dom (lua_states h2) = dom (lua_states demo_host) /\
    ext_envs h2 = ext_envs h1.
Proof.
  apply (@make_then_dest_ext_env demo 1%positive (demo_params 1) demo_host).
  - by eexists.
  - apply demo_provide_styler_runtime_only.
  - apply demo_loaders_runtime_only.
  - intros s. apply demo_loaders_runtime_only.
Defined.

(** ** More on the handler *)

Section HandlerProperties.
Context `{Collaborators}.

(** X13.  When the handler raises, the message is one of its two, and it
    has written no flag, freed or allocated nothing and left every runtime,
    so the Lua stack, as at the call: the host memory is the one before
    the call, but for the warning in the log when there were arguments. *)
Theorem ext_require_rerun_raises s h msg h' :
  ext_require_rerun s h = Raised msg h' ->
  (msg = "Warnings are fatal" \/ msg = "Invalid internal value") /\
  (h' = h \/ h' = warned h) /\
  (msg = "Warnings are fatal" -> warn_status h ≠ 0 /\ h' = warned h) /\
  ext_envs h' = ext_envs h /\ lua_states h' = lua_states h /\
  lua_pointers h' = lua_pointers h.
Proof.
  intros Hrun. destruct (lua_states h !! s) as [L|] eqn:HL.
  2:{ by rewrite ext_require_rerun_dangling in Hrun. }
  rewrite (ext_require_rerun_eq s h L HL) in Hrun.
  destruct (stack L) as [|v st].
  - apply resolved_raised in Hrun as [-> ->]. split_and!; auto; by intros [=].
  - destruct (Z.eqb_spec (warn_status h) 0) as [Hw|Hw].
    + apply resolved_raised in Hrun as [-> ->]. split_and!; auto; by intros [=].
    + inversion Hrun; subst. split_and!; auto.
Qed.

(** X14.  A call without arguments that returns can be repeated at once
    with no further effect: the second call returns and leaves the host
    memory of the first.  And when the flag of the environment behind the
    self-handle was set already, the first call has changed nothing at
    all. *)
Theorem ext_require_rerun_again s h L rc h' :
  lua_states h !! s = Some L -> stack L = [] ->
  ext_require_rerun s h = Done rc h' ->
  ext_require_rerun s h' = Done 0 h' /\
  ((forall p lp,
      global_value L EM_ENV_VAR_NAME = LLightUserdata p ->
      lua_pointers h !! p = Some (Some lp) -> flag_set (pointer lp) h) ->
   h' = h).
Proof.
  intros HL Hst Hrun. rewrite (ext_require_rerun_eq s h L HL), Hst in Hrun.
  apply resolved_done in Hrun
    as (-> & L1 & p & lp & env & HL1 & Hg & Hp & Hk & He & ->).
  rewrite HL in HL1. inversion HL1; subst L1. split.
  - rewrite (ext_require_rerun_eq _ _ L) by done. rewrite Hst.
    unfold resolved. simpl. rewrite HL, Hg, Hp, decide_True by done.
    rewrite lookup_insert_eq. rewrite insert_insert_eq. done.
  - intros Hset. destruct (Hset p lp Hg Hp) as (env' & He' & Hf).
    rewrite He in He'. inversion He'; subst env'.
    assert (set_require_extra_run true env = env) as ->
      by (destruct env; simpl in *; by subst).
    rewrite insert_id by done. by destruct h.
Qed.

(** X15.  The arguments of the handler are ignored indeed: two calls that
    differ in nothing but the values on the stack, at least one in each,
    have the same outcome; they return or raise alike, with the same
    message, environments, handles and log. *)
Theorem ext_require_rerun_arguments_ignored s h L st st' :
  lua_states h !! s = Some L -> st ≠ [] -> st' ≠ [] ->
  match ext_require_rerun s (upd_state s (set_stack st L) h),
        ext_require_rerun s (upd_state s (set_stack st' L) h) with
  | Done rc a, Done rc' b =>
      rc = rc' /\ ext_envs a = ext_envs b /\ lua_pointers a = lua_pointers b /\
      logs a = logs b
  | Raised msg a, Raised msg' b =>
      msg = msg' /\ ext_envs a = ext_envs b /\ lua_pointers a = lua_pointers b /\
      logs a = logs b
  | Undefined, Undefined => True
  | _, _ => False
  end.
Proof.
  intros HL Hst Hst'.
  rewrite (ext_require_rerun_eq _ _ (set_stack st L)) by apply lookup_upd_state.
  rewrite (ext_require_rerun_eq _ _ (set_stack st' L)) by apply lookup_upd_state.
  simpl. destruct st as [|v st]; [done|]. destruct st' as [|v' st']; [done|].
  destruct (warn_status h =? 0); [|done].
  unfold resolved, global_value. simpl. rewrite !lookup_insert_eq. simpl.
  destruct (default LNil (globals L !! EM_ENV_VAR_NAME)) as [| | | |p| | |]; try done.
  destruct (lua_pointers h !! p) as [[lp|]|]; try done.
  destruct (decide (kind lp = EXT_ENV)); [|done].
  by destruct (ext_envs h !! pointer lp).
Qed.

End HandlerProperties.

(** In a runtime that comes from [luaL_newstate] the self-handle is not
    bound, and the handler raises. *)
Lemma ext_require_rerun_raises_witness :
  @ext_require_rerun demo 1%positive demo_runtime
    = Raised "Invalid internal value" demo_runtime /\
  (demo_runtime = demo_runtime \/ demo_runtime = @warned demo_runtime).
Proof.
  split; [reflexivity|].
  exact (proj1 (proj2 (@ext_require_rerun_raises demo 1%positive demo_runtime
                         "Invalid internal value" demo_runtime eq_refl))).
Defined.

Lemma ext_require_rerun_again_witness :
  @ext_require_rerun demo 1%positive demo_created = Done 0 demo_created.
Proof.
  destruct (@ext_require_rerun_again demo 1%positive demo_created demo_created_runtime
              0 demo_created eq_refl eq_refl eq_refl) as [Hagain _].
  exact Hagain.
Defined.

Lemma ext_require_rerun_arguments_ignored_witness :
  match @ext_require_rerun demo 1%positive
          (upd_state 1%positive (set_stack [LInteger 7] demo_created_runtime) demo_created),
        @ext_require_rerun demo 1%positive
          (upd_state 1%positive (set_stack [LNil; LString "x"] demo_created_runtime)
             demo_created) with
  | Done rc a, Done rc' b =>
      rc = rc' /\ ext_envs a = ext_envs b /\ lua_pointers a = lua_pointers b /\
      logs a = logs b
  | Raised msg a, Raised msg' b =>
      msg = msg' /\ ext_envs a = ext_envs b /\ lua_pointers a = lua_pointers b /\
      logs a = logs b
  | Undefined, Undefined => True
  | _, _ => False
  end.
Proof.
  apply (@ext_require_rerun_arguments_ignored demo 1%positive demo_created
           demo_created_runtime [LInteger 7] [LNil; LString "x"]).
  - reflexivity.
  - discriminate.
  - discriminate.
Defined.
